(** * Acceptance-test fixtures of Hydra: [acceptance/shared/shared.go]

    A shallow embedding of the Go package [shared] and the proofs of its
    specification.  The package has four functions:

    - [MustHaveValidContainerLogDir] checks the configured log directory,
    - [CreatePGPool] opens a pgx pool and pings the database,
    - [TerminateContainer] stops or kills a docker container,
    - [writeLogs] saves the container log before that.

    All four are effectful.  Their effects are modelled by a state and
    failure monad [M] over a record [State] (clock, file system, calls made
    to the outside, state of the running [*testing.T]); the outside world
    (docker, the file system, pgx) answers through a record [World] of
    oracles that may depend on everything that happened before.

    What is not code of the package is modelled as far as the properties
    need it: [errors.Is] and [fmt.Errorf] on chains with one [%w],
    [filepath.IsAbs] and [filepath.Join] for Unix paths, the deadline of a
    context derived with [context.WithTimeout], the content and the mode that
    [os.WriteFile] leaves, [url.Parse] on the URLs the package builds.  The test [t] that the functions take is the one whose
    state [State] holds.  Time is the reading of a clock in nanoseconds that
    every blocking call moves on by what the world says it takes. *)

From Stdlib Require Import Ascii String ZArith Lia.
From stdpp Require Import base numbers list strings gmap pretty.

Local Open Scope string_scope.
Local Open Scope list_scope.
Local Open Scope Z_scope.

(** ** Strings *)

(** No character of [s] is one of [bad]. *)
Fixpoint free_of (bad : ascii -> bool) (s : string) : bool :=
  match s with
  | EmptyString => true
  | String c s' => negb (bad c) && free_of bad s'
  end.

(** ** Go errors *)

Module Errors.

(** A Go [error] value.  [errorString] is what [errors.New] returns: a pointer
    to a text.  [wrapError] is what [fmt.Errorf] returns for a format with one
    [%w] verb: a pointer to the formatted message and the error that [Unwrap]
    gives back.  Both are compared by address: [addr] is the address of the
    allocation, and two values with the same text at different addresses are
    different errors. *)
Inductive error : Type :=
| errorString (addr : positive) (s : string)
| wrapError (addr : positive) (msg : string) (err : error).

#[global] Instance error_eq_dec : EqDecision error.
Proof. solve_decision. Defined.

(** [err.Error()] *)
Definition Error (e : error) : string :=
  match e with
  | errorString _ s => s
  | wrapError _ msg _ => msg
  end.

(** [errors.Unwrap(err)] *)
Definition Unwrap (e : error) : option error :=
  match e with
  | errorString _ _ => None
  | wrapError _ _ err => Some err
  end.

(** [errors.Is(err, target)]: [target] is compared with [err] and with every
    error of its [Unwrap] chain. *)
Fixpoint Is (e target : error) : bool :=
  bool_decide (e = target) ||
  match e with
  | errorString _ _ => false
  | wrapError _ _ err => Is err target
  end.

(** [fmt.Errorf(prefix + "%w", err)], allocated at [addr] *)
Definition Errorf_w (addr : positive) (prefix : string) (err : error) : error :=
  wrapError addr (prefix +:+ Error err) err.

(** [fmt.Errorf("%w: %s", sentinel, err)], allocated at [addr]: only
    [sentinel] is wrapped, [err] contributes its text. *)
Definition Errorf_w_s (addr : positive) (sentinel err : error) : error :=
  wrapError addr (Error sentinel +:+ ": " +:+ Error err) sentinel.

End Errors.

Import Errors.

(** ** [path/filepath], Unix flavour *)

Module Filepath.

Definition Separator : ascii := "/"%char.

(** [filepath.IsAbs]: [strings.HasPrefix(path, "/")] *)
Definition IsAbs (path : string) : bool :=
  match path with
  | String c _ => bool_decide (c = Separator)
  | EmptyString => false
  end.

(** The elements of a path between separators, empty ones included. *)
Fixpoint elements_from (cur s : string) : list string :=
  match s with
  | EmptyString => [cur]
  | String c s' =>
      if bool_decide (c = Separator)
      then cur :: elements_from "" s'
      else elements_from (cur +:+ String c "") s'
  end.

Definition elements (path : string) : list string := elements_from "" path.

(** One round of the loop of [filepath.Clean]; [out] holds the elements kept so
    far, the last one first. *)
Definition clean_step (rooted : bool) (out : list string) (e : string) : list string :=
  if bool_decide (e = "") then out
  else if bool_decide (e = ".") then out
  else if bool_decide (e = "..") then
    match out with
    | top :: rest => if bool_decide (top = "..") then e :: out else rest
    | [] => if rooted then [] else [e]
    end
  else e :: out.

(** [strings.Join(elems, "/")] *)
Fixpoint join_sep (elems : list string) : string :=
  match elems with
  | [] => ""
  | [e] => e
  | e :: rest => e +:+ "/" +:+ join_sep rest
  end.

(** [filepath.Clean] *)
Definition Clean (path : string) : string :=
  if bool_decide (path = "") then "."
  else
    let rooted := IsAbs path in
    let out := rev (fold_left (clean_step rooted) (elements path) []) in
    if rooted then "/" +:+ join_sep out
    else if bool_decide (out = []) then "." else join_sep out.

(** An element that [Clean] keeps as it is: a name without separator other
    than the empty one, [.] and [..]. *)
Definition is_separator (c : ascii) : bool := bool_decide (c = Separator).

Definition plain (e : string) : bool :=
  free_of is_separator e &&
  negb (bool_decide (e = "")) && negb (bool_decide (e = ".")) &&
  negb (bool_decide (e = "..")).

(** [filepath.Join]: the elements from the first non-empty one on, joined with
    the separator and cleaned. *)
Fixpoint Join (elem : list string) : string :=
  match elem with
  | [] => ""
  | e :: rest => if bool_decide (e = "") then Join rest else Clean (join_sep elem)
  end.

End Filepath.

(** ** [context] and [time] *)

(** Time instants and durations are counted in nanoseconds, as in [time]. *)
Definition time_Second : Z := 1000000000.

(** A [context.Context]: the one the caller holds, with its deadline if it
    has one, or one derived from a parent. *)
Inductive Context : Type :=
| callerCtx (deadline : option Z)
| cancelCtx (parent : Context)
| timerCtx (parent : Context) (deadline : Z).

#[global] Instance Context_eq_dec : EqDecision Context.
Proof. solve_decision. Defined.

(** [ctx.Deadline()] *)
Fixpoint Deadline (ctx : Context) : option Z :=
  match ctx with
  | callerCtx d => d
  | cancelCtx parent => Deadline parent
  | timerCtx _ d => Some d
  end.

Definition parent_of (ctx : Context) : option Context :=
  match ctx with
  | callerCtx _ => None
  | cancelCtx parent | timerCtx parent _ => Some parent
  end.

(** [context.WithDeadline(parent, d)]: when the parent's deadline is already
    earlier than [d] the child is a plain cancel context of the parent. *)
Definition context_WithDeadline (parent : Context) (d : Z) : Context :=
  match Deadline parent with
  | Some cur => if cur <? d then cancelCtx parent else timerCtx parent d
  | None => timerCtx parent d
  end.

(** [context.WithTimeout(parent, timeout)], called at instant [now]. *)
Definition context_WithTimeout (now : Z) (parent : Context) (timeout : Z) : Context :=
  context_WithDeadline parent (now + timeout).

(** ** The state of a test run and the outside world *)

(** A [*pgxpool.Pool] that is not nil. *)
Inductive Pool : Type := poolPtr (addr : positive).

#[global] Instance Pool_eq_dec : EqDecision Pool.
Proof. solve_decision. Defined.

(** The calls that leave the package, with their arguments. *)
Inductive event : Type :=
| CombinedOutput (ctx : Context) (argv : list string)
| WriteFile (name data : string) (perm : Z)
| pgxpoolNew (ctx : Context) (connString : string)
| poolPing (ctx : Context) (pool : Pool)
| poolClose (pool : Pool)
| cancel (ctx : Context).

#[global] Instance event_eq_dec : EqDecision event.
Proof. solve_decision. Defined.

(** The function values handed to [t.Cleanup].  The package has one:
    [func() { pool.Close() }]. *)
Inductive closure : Type := closePool (pool : Pool).

(** A regular file: what it holds and its permission bits. *)
Record file : Type := mkFile {
  content : string;
  mode : Z
}.

Record State : Type := mkState {
  now : Z;                      (* the clock, [time.Now()] *)
  files : gmap string file;     (* the file system: files by path *)
  calls : list event;           (* calls made so far, the oldest first *)
  cleanups : list closure;      (* registered with [t.Cleanup], the latest first *)
  failed : bool;                (* [t.Failed()] *)
  output : list string;         (* messages logged through [t] *)
  stderr : list string          (* messages printed by package [log] *)
}.

(** How a call of a function of the package ends. *)
Inductive outcome (A : Type) : Type :=
| Returned (a : A)    (* it returns to its caller *)
| FailNow             (* [t.FailNow]: the test goroutine exits, the test has failed *)
| Exit (code : Z).    (* [os.Exit]: the process of the whole test binary ends *)

Arguments Returned {A} a.
Arguments FailNow {A}.
Arguments Exit {A} code.

(** The answers of the outside world.  Each may depend on the whole state,
    hence on every call made before.  [pgxpool.New] returns a pool or an error,
    never both and never neither.  [alloc] is the address the Go runtime gives
    to the next value allocated, [umask] the file mode creation mask of the
    process. *)
Record World : Type := mkWorld {
  run_command : State -> Context -> list string -> string * option error;
  write_error : State -> string -> string -> Z -> option error;
  new_pool : State -> Context -> string -> Pool + error;
  ping : State -> Context -> Pool -> option error;
  elapsed : State -> event -> Z;
  alloc : State -> positive;
  umask : Z
}.

Definition M (A : Type) : Type := State -> outcome A * State.

Definition ret {A : Type} (a : A) : M A := fun s => (Returned a, s).

Definition bind {A B : Type} (m : M A) (k : A -> M B) : M B :=
  fun s =>
    match m s with
    | (Returned a, s') => k a s'
    | (FailNow, s') => (FailNow, s')
    | (Exit code, s') => (Exit code, s')
    end.

Notation "x <~ m ;; k" := (bind m (fun x => k))
  (at level 100, m at next level, right associativity).
Notation "m ;;; k" := (bind m (fun _ => k))
  (at level 100, right associativity).

(** [defer d(); body]: [d] runs when [body] returns and when the goroutine
    exits, not when the process does. *)
Definition defer {A : Type} (d : M unit) (body : M A) : M A :=
  fun s =>
    match body s with
    | (Exit code, s') => (Exit code, s')
    | (o, s') => (o, snd (d s'))
    end.

Section Program.

Variable W : World.

(** A call to the outside is put on record and takes its time. *)
Definition record (e : event) (s : State) : State :=
  mkState (now s + elapsed W s e) (files s) (calls s ++ [e]) (cleanups s)
          (failed s) (output s) (stderr s).

(** What [os.WriteFile(name, data, perm)] leaves at [name]: a file that is
    there is truncated and keeps its mode; a file that is not there is created
    with the bits of [perm] that the umask does not clear. *)
Definition written (old : option file) (data : string) (perm : Z) : file :=
  match old with
  | Some f => mkFile data (mode f)
  | None => mkFile data (Z.land perm (Z.lnot (umask W)))
  end.

Definition store (name data : string) (perm : Z) (s : State) : State :=
  mkState (now s) (<[name := written (files s !! name) data perm]> (files s))
          (calls s) (cleanups s) (failed s) (output s) (stderr s).

(** The test logs [msg] and is marked as failed. *)
Definition fatal (msg : string) (s : State) : State :=
  mkState (now s) (files s) (calls s) (cleanups s)
          true (output s ++ [msg]) (stderr s).

(** The test will call [f] when it ends. *)
Definition register (f : closure) (s : State) : State :=
  mkState (now s) (files s) (calls s) (f :: cleanups s)
          (failed s) (output s) (stderr s).

(** A call that does not block is put on record only. *)
Definition note (e : event) (s : State) : State :=
  mkState (now s) (files s) (calls s ++ [e]) (cleanups s)
          (failed s) (output s) (stderr s).

(** [exec.CommandContext(ctx, argv...).CombinedOutput()] *)
Definition exec_CombinedOutput (ctx : Context) (argv : list string)
  : M (string * option error) :=
  fun s => (Returned (run_command W s ctx argv), record (CombinedOutput ctx argv) s).

(** [os.WriteFile(name, data, perm)]: on success the file holds [data],
    whatever it held before; its mode is [perm] only when the call creates
    it. *)
Definition os_WriteFile (name data : string) (perm : Z) : M (option error) :=
  fun s =>
    let s' := record (WriteFile name data perm) s in
    match write_error W s name data perm with
    | Some err => (Returned (Some err), s')
    | None => (Returned None, store name data perm s')
    end.

(** [pgxpool.New(ctx, connString)] *)
Definition pgxpool_New (ctx : Context) (connString : string) : M (Pool + error) :=
  fun s => (Returned (new_pool W s ctx connString), record (pgxpoolNew ctx connString) s).

(** [pool.Ping(ctx)] *)
Definition pool_Ping (pool : Pool) (ctx : Context) : M (option error) :=
  fun s => (Returned (ping W s ctx pool), record (poolPing ctx pool) s).

(** [pool.Close()] *)
Definition pool_Close (pool : Pool) : M unit :=
  fun s => (Returned tt, record (poolClose pool) s).

(** The [cancel] function that [context.WithTimeout] returns. *)
Definition cancel_func (ctx : Context) : M unit :=
  fun s => (Returned tt, note (cancel ctx) s).

(** [context.WithTimeout(parent, timeout)] reads the clock. *)
Definition WithTimeout (parent : Context) (timeout : Z) : M Context :=
  fun s => (Returned (context_WithTimeout (now s) parent timeout), s).

(** [fmt.Errorf] with the two formats of the package: the error is a new
    allocation. *)
Definition fmt_Errorf_w (prefix : string) (err : error) : M error :=
  fun s => (Returned (Errorf_w (alloc W s) prefix err), s).

Definition fmt_Errorf_w_s (sentinel err : error) : M error :=
  fun s => (Returned (Errorf_w_s (alloc W s) sentinel err), s).

(** [t.Helper()] marks the caller for the line numbers of failure messages;
    nothing else. *)
Definition t_Helper : M unit := ret tt.

(** [t.Cleanup(f)] *)
Definition t_Cleanup (f : closure) : M unit :=
  fun s => (Returned tt, register f s).

(** [t.Fatalf]: [t.Logf] followed by [t.FailNow]. *)
Definition t_Fatalf {A : Type} (msg : string) : M A :=
  fun s => (FailNow, fatal msg s).

(** [log.Fatalf]: [log.Printf] followed by [os.Exit(1)]. *)
Definition log_Fatalf {A : Type} (msg : string) : M A :=
  fun s =>
    (Exit 1,
     mkState (now s) (files s) (calls s) (cleanups s)
             (failed s) (output s) (stderr s ++ [msg])).

(** What the closure does when the testing framework calls it. *)
Definition run_closure (f : closure) : M unit :=
  match f with
  | closePool pool => pool_Close pool
  end.

(** *** The package *)

(** [var ErrPgPoolConnect = errors.New("pgxpool did not connect")]; the
    address stands for the one allocation made when the package is loaded. *)
Definition ErrPgPoolConnect : error := errorString 1 "pgxpool did not connect".

Definition MustHaveValidContainerLogDir (logDir : string) : M unit :=
  if negb (bool_decide (logDir = "")) && negb (Filepath.IsAbs logDir)
  then log_Fatalf ("the container log dir must be absolute, got " +:+ logDir)
  else ret tt.

(** [fmt.Sprintf("postgres://%s:%s@127.0.0.1:%d", username, password, port)] *)
Definition connString (username password : string) (port : Z) : string :=
  "postgres://" +:+ username +:+ ":" +:+ password +:+ "@127.0.0.1:" +:+ pretty port.

(** The result is the pair of a [*pgxpool.Pool] and an [error]; [None] is
    [nil]. *)
Definition CreatePGPool (ctx : Context) (username password : string) (port : Z)
  : M (option Pool * option error) :=
  t_Helper ;;;
  ctx' <~ WithTimeout ctx time_Second ;;
  defer (cancel_func ctx')
    (r <~ pgxpool_New ctx' (connString username password port) ;;
     match r with
     | inr err =>
         e <~ fmt_Errorf_w "failed to construct new pool: " err ;;
         ret (None, Some e)
     | inl pool =>
         perr <~ pool_Ping pool ctx' ;;
         match perr with
         | Some err =>
             e <~ fmt_Errorf_w_s ErrPgPoolConnect err ;;
             ret (None, Some e)
         | None =>
             t_Cleanup (closePool pool) ;;;
             ret (Some pool, None)
         end
     end).

Definition log_file_mode : Z := 6 * 64 + 4 * 8 + 4.   (* 0644 *)

Definition writeLogs (ctx : Context) (containerName logDir : string) : M unit :=
  if bool_decide (logDir = "") then ret tt
  else
    r <~ exec_CombinedOutput ctx ["docker"; "logs"; containerName] ;;
    let '(logOutput, err) := r in
    match err with
    | Some e =>
        t_Fatalf ("unable to fetch container log " +:+ Error e +:+ ": " +:+ logOutput)
    | None =>
        werr <~ os_WriteFile (Filepath.Join [logDir; containerName +:+ ".log"])
                             logOutput log_file_mode ;;
        match werr with
        | Some e => t_Fatalf ("unable to write container log: " +:+ Error e)
        | None => ret tt
        end
    end.

Definition termCmd (kill : bool) (containerName : string) : list string :=
  if kill then ["docker"; "kill"; containerName]
  else ["docker"; "stop"; "--time"; "30"; containerName].

Definition TerminateContainer (ctx : Context) (containerName logDir : string)
    (kill : bool) : M unit :=
  if bool_decide (containerName = "") then ret tt
  else
    writeLogs ctx containerName logDir ;;;
    r <~ exec_CombinedOutput ctx (termCmd kill containerName) ;;
    let '(output, err) := r in
    match err with
    | Some e =>
        t_Fatalf ("unable to terminate container " +:+ Error e +:+ ": " +:+ output)
    | None => ret tt
    end.

End Program.

(** ** Observations on a run *)

(** The calls a computation makes when started in [s]. *)
Definition issued {A : Type} (m : M A) (s : State) : list event :=
  drop (length (calls s)) (calls (snd (m s))).

(** The context a call is bound by, when it takes one. *)
Definition event_ctx (e : event) : option Context :=
  match e with
  | CombinedOutput ctx _ | pgxpoolNew ctx _ | poolPing ctx _ => Some ctx
  | WriteFile _ _ _ | poolClose _ | cancel _ => None
  end.

(** The docker subcommands that end a container. *)
Definition is_termination (e : event) : bool :=
  match e with
  | CombinedOutput _ (_ :: sub :: _) =>
      bool_decide (sub = "kill") || bool_decide (sub = "stop")
  | _ => false
  end.


Definition is_write (e : event) : bool :=
  match e with
  | WriteFile _ _ _ => true
  | _ => false
  end.

(** The nine permission bits of a file mode, as [ls] and [fs.FileMode.String]
    print them. *)
Definition perm_bits (perm : Z) : string :=
  let bit (i : Z) (c : ascii) : string :=
    String (if Z.testbit perm i then c else "-"%char) "" in
  bit 8 "r"%char +:+ bit 7 "w"%char +:+ bit 6 "x"%char +:+
  bit 5 "r"%char +:+ bit 4 "w"%char +:+ bit 3 "x"%char +:+
  bit 2 "r"%char +:+ bit 1 "w"%char +:+ bit 0 "x"%char.

(** A world whose blocking calls give up when the deadline of their context
    passes: a call bound by a context with deadline [d] is over by [d], or at
    once when [d] has passed already. *)
Definition honours_deadline (W : World) : Prop :=
  forall (s : State) (e : event) (ctx : Context) (d : Z),
    event_ctx e = Some ctx -> Deadline ctx = Some d ->
    now s + elapsed W s e <= Z.max (now s) d.

(** ** [url.Parse] on the connection strings of the package

    pgx hands a connection string that starts with [postgres://] to
    [url.Parse] of [net/url] and connects to the [Host] of the result.  The
    model follows [Parse], [parse], [parseAuthority], [parseHost],
    [validOptionalPort] and [validUserinfo] on the URLs it covers and says so
    where it does not cover one: a URL with a percent sign (then [unescape]
    decodes), a host with a bracket (an IP literal) or with more than one
    colon, a string that does not start with [postgres://]. *)

Module Url.

(** The result of a parse: a value, the error that [url.Parse] returns, or a
    URL outside the model. *)
Inductive result (A : Type) : Type :=
| Ok (a : A)
| Rejected
| Unmodelled.

Arguments Ok {A} a.
Arguments Rejected {A}.
Arguments Unmodelled {A}.

(** What pgx reads from a [*url.URL]: the user name with the password when
    one is set, and host and port. *)
Record URL : Type := mkURL {
  User : option (string * option string);
  Host : string
}.

Definition code (c : ascii) : N := N_of_ascii c.

Definition is_char (x : ascii) (c : ascii) : bool := bool_decide (c = x).

Definition is_digit (c : ascii) : bool := (48 <=? code c)%N && (code c <=? 57)%N.

Definition is_alnum (c : ascii) : bool :=
  (97 <=? code c)%N && (code c <=? 122)%N ||
  (65 <=? code c)%N && (code c <=? 90)%N ||
  is_digit c.

(** Every character of [s] is one of [good]. *)
Definition all_of (good : ascii -> bool) (s : string) : bool :=
  free_of (fun c => negb (good c)) s.

Definition one_of (set : string) (c : ascii) : bool := negb (free_of (is_char c) set).

(** [strings.HasPrefix(s, p)], with what follows the prefix. *)
Fixpoint strip_prefix (p s : string) : option string :=
  match p, s with
  | EmptyString, _ => Some s
  | String a p', String b s' => if bool_decide (a = b) then strip_prefix p' s' else None
  | String _ _, EmptyString => None
  end.

(** [before, _, _ := strings.Cut(s, sep)]: the part before the first [sep],
    all of [s] when there is none. *)
Fixpoint before (sep : ascii) (s : string) : string :=
  match s with
  | EmptyString => ""
  | String c s' => if is_char sep c then "" else String c (before sep s')
  end.

(** [_, after, _ := strings.Cut(s, sep)] *)
Fixpoint after (sep : ascii) (s : string) : string :=
  match s with
  | EmptyString => ""
  | String c s' => if is_char sep c then s' else after sep s'
  end.

(** [i := strings.LastIndex(s, sep)]: [None] when [i < 0], else [s[:i]] and
    [s[i+1:]]. *)
Fixpoint split_last (sep : ascii) (s : string) : option (string * string) :=
  match s with
  | EmptyString => None
  | String c s' =>
      match split_last sep s' with
      | Some (a, b) => Some (String c a, b)
      | None => if is_char sep c then Some ("", s') else None
      end
  end.

(** [stringContainsCTLByte]: a byte below the space, or 0x7f. *)
Definition is_ctl (c : ascii) : bool := (code c <? 32)%N || (code c =? 127)%N.

Definition stringContainsCTLByte (s : string) : bool := negb (free_of is_ctl s).

(** [validUserinfo]: letters, digits and the listed marks; a byte above 0x7f
    is part of a rune that is none of them. *)
Definition userinfo_byte (c : ascii) : bool :=
  is_alnum c || one_of "-._:~!$&'()*+,;=%@" c.

Definition validUserinfo (s : string) : bool := all_of userinfo_byte s.

(** [!shouldEscape(c, encodeHost)] for a byte below 0x80; [unescape] in host
    mode lets every byte from 0x80 on pass. *)
Definition host_byte (c : ascii) : bool :=
  (128 <=? code c)%N || is_alnum c ||
  one_of "!$&'()*+,;=:[]<>" c || is_char (ascii_of_nat 34) c ||
  one_of "-_.~" c.

(** [parseHost] for a host without percent sign.  The port after the last
    colon has to be digits; then [unescape] in host mode rejects the bytes
    that would have to be escaped. *)
Definition parseHost (host : string) : result string :=
  if negb (free_of (one_of "[]") host) then Unmodelled
  else
    match split_last ":" host with
    | Some (name, port) =>
        if negb (all_of is_digit port) then Rejected
        else if negb (free_of (is_char ":") name) then Unmodelled
        else if all_of host_byte host then Ok host else Rejected
    | None => if all_of host_byte host then Ok host else Rejected
    end.

(** [User(userinfo)] or [UserPassword(username, password)], as
    [parseAuthority] chooses. *)
Definition userOf (userinfo : string) : string * option string :=
  if free_of (is_char ":") userinfo then (userinfo, None)
  else (before ":" userinfo, Some (after ":" userinfo)).

(** [parseAuthority]: the host is what follows the last [@]. *)
Definition parseAuthority (authority : string) : result URL :=
  match split_last "@" authority with
  | None =>
      match parseHost authority with
      | Ok host => Ok (mkURL None host)
      | Rejected => Rejected
      | Unmodelled => Unmodelled
      end
  | Some (userinfo, hostport) =>
      match parseHost hostport with
      | Ok host =>
          if validUserinfo userinfo then Ok (mkURL (Some (userOf userinfo)) host)
          else Rejected
      | Rejected => Rejected
      | Unmodelled => Unmodelled
      end
  end.

(** [url.Parse]: the fragment is cut off, control bytes are refused, the
    scheme is read, the query is cut off, and the authority is what stands
    between the two slashes and the next one.  Without percent sign the path
    and the fragment are accepted as they are. *)
Definition Parse (rawURL : string) : result URL :=
  if negb (free_of (is_char "%") rawURL) then Unmodelled
  else
    let u := before "#" rawURL in
    if stringContainsCTLByte u then Rejected
    else
      match strip_prefix "postgres:" u with
      | None => Unmodelled
      | Some rest =>
          match strip_prefix "//" (before "?" rest) with
          | None => Unmodelled
          | Some rest' => parseAuthority (before "/" rest')
          end
      end.

(** A name made of letters, digits, dots and hyphens. *)
Definition hostname_byte (c : ascii) : bool := is_alnum c || one_of "-." c.

Definition hostname (s : string) : bool := all_of hostname_byte s.

(** A user name or password of bytes that [validUserinfo] accepts, the
    percent sign left out. *)
Definition plain_byte (c : ascii) : bool := userinfo_byte c && negb (is_char "%" c).

Definition plain_userinfo (s : string) : bool := all_of plain_byte s.

End Url.

(** ** Some worlds to run the package in *)

Module Worlds.

(** A database that answers, a docker daemon that obeys, a disk with room;
    every call takes a millisecond.  The umask is 022. *)
Definition healthy : World :=
  mkWorld (fun _ _ _ => ("2026-01-01 database system is ready", None))
          (fun _ _ _ _ => None)
          (fun _ _ _ => inl (poolPtr 7))
          (fun _ _ _ => None)
          (fun _ _ => 1000000)
          (fun s => Pos.of_nat (100 + length (calls s)))
          18.

(** Nothing answers on the port: the ping lasts until the deadline of its
    context; any other call takes a millisecond, or what is left until the
    deadline when that is less. *)
Definition unreachable : World :=
  mkWorld (run_command healthy) (write_error healthy) (new_pool healthy)
          (fun _ _ _ => Some (errorString 2 "context deadline exceeded"))
          (fun s e =>
             match event_ctx e ≫= Deadline with
             | Some d =>
                 let left := Z.max 0 (d - now s) in
                 match e with
                 | poolPing _ _ => left
                 | _ => Z.min 1000000 left
                 end
             | None => 1000000
             end)
          (alloc healthy) (umask healthy).

(** pgx rejects the connection string. *)
Definition misconfigured : World :=
  mkWorld (run_command healthy) (write_error healthy)
          (fun _ _ _ => inr (errorString 3 "cannot parse connection string"))
          (ping healthy) (elapsed healthy) (alloc healthy) (umask healthy).

(** The docker daemon is not running: every docker command fails. *)
Definition docker_down : World :=
  mkWorld (fun _ _ _ =>
             ("Cannot connect to the Docker daemon", Some (errorString 4 "exit status 1")))
          (write_error healthy) (new_pool healthy) (ping healthy) (elapsed healthy)
          (alloc healthy) (umask healthy).

(** The log is fetched, the disk is full. *)
Definition disk_full : World :=
  mkWorld (run_command healthy)
          (fun _ _ _ _ => Some (errorString 5 "no space left on device"))
          (new_pool healthy) (ping healthy) (elapsed healthy)
          (alloc healthy) (umask healthy).

(** The log is fetched and written, the container does not stop. *)
Definition stubborn : World :=
  mkWorld (fun _ _ argv =>
             if bool_decide (argv = ["docker"; "logs"; "db1"])
             then ("ready", None)
             else ("Error response from daemon", Some (errorString 6 "exit status 1")))
          (write_error healthy) (new_pool healthy) (ping healthy) (elapsed healthy)
          (alloc healthy) (umask healthy).

(** The start of a test: an old log of the container is on disk, readable
    and writable by its owner only (mode 0600). *)
Definition start : State :=
  mkState 0 {[ "/var/log/hydra/db1.log" := mkFile "log of an earlier run" 384 ]}
          [] [] false [] [].

(** The start of a test on a disk without files. *)
Definition fresh : State := mkState 0 ∅ [] [] false [] [].

Definition background : Context := callerCtx None.

End Worlds.

(** * Properties *)

#[local] Arguments Filepath.Join : simpl never.
#[local] Arguments log_file_mode : simpl never.
#[local] Arguments termCmd : simpl never.

(** ** Bookkeeping *)

(** The calls of a run, read off the final state. *)
Ltac read_issued :=
  unfold issued; simpl; rewrite <- ?app_assoc; simpl; rewrite ?drop_app_length;
  rewrite ?app_nil_r, ?drop_all.

(** Closes [x ∉ [y; ...]] when [x] differs from each element visibly or by a
    hypothesis. *)
Ltac distinct :=
  rewrite ?not_elem_of_cons; repeat split; try done; apply not_elem_of_nil.

Lemma issued_app {A : Type} (m : M A) (s : State) (l : list event) :
  calls (snd (m s)) = calls s ++ l -> issued m s = l.
Proof.
  intros H. unfold issued. rewrite H. apply drop_app_length.
Qed.

Lemma Is_refl (e : error) : Is e e = true.
Proof.
  destruct e; simpl; rewrite bool_decide_eq_true_2; done.
Qed.

Lemma Is_Errorf_w (addr : positive) (prefix : string) (err target : error) :
  Is err target = true -> Is (Errorf_w addr prefix err) target = true.
Proof.
  intros H. unfold Errorf_w. simpl. rewrite H. apply orb_true_r.
Qed.

(** ** Strings and URLs *)

Lemma app_String (x : ascii) (a b : string) : String x a +:+ b = String x (a +:+ b).
Proof. reflexivity. Qed.

Lemma app_empty (b : string) : "" +:+ b = b.
Proof. reflexivity. Qed.

Lemma app_char (x : ascii) (b : string) : String x "" +:+ b = String x b.
Proof. reflexivity. Qed.

Lemma string_app_assoc (a b c : string) : (a +:+ b) +:+ c = a +:+ b +:+ c.
Proof.
  induction a as [|x a IH]; [reflexivity|].
  rewrite !app_String. by f_equal.
Qed.

Lemma string_app_empty_r (a : string) : a +:+ "" = a.
Proof.
  induction a as [|x a IH]; [reflexivity|].
  rewrite app_String. by f_equal.
Qed.

Lemma free_of_app (bad : ascii -> bool) (a b : string) :
  free_of bad (a +:+ b) = free_of bad a && free_of bad b.
Proof.
  induction a as [|x a IH]; [reflexivity|].
  rewrite app_String. simpl. rewrite IH. by rewrite andb_assoc.
Qed.

Lemma free_of_impl (bad1 bad2 : ascii -> bool) (s : string) :
  (forall c : ascii, bad2 c = true -> bad1 c = true) ->
  free_of bad1 s = true -> free_of bad2 s = true.
Proof.
  intros Himpl. induction s as [|x s IH]; [reflexivity|]. simpl.
  intros [Hx Hs]%andb_true_iff. rewrite IH by done. rewrite andb_true_r.
  apply negb_true_iff in Hx. apply negb_true_iff.
  destruct (bad2 x) eqn:H2; [|reflexivity]. by rewrite (Himpl x H2) in Hx.
Qed.

(** Settles a fact about every byte by going through the bytes. *)
Ltac by_bytes :=
  let c := fresh "c" in
  intros c; destruct c as [[] [] [] [] [] [] [] []]; vm_compute;
  intros; first [reflexivity | discriminate].

(** *** Cutting strings *)

Lemma before_free (sep : ascii) (a : string) :
  free_of (Url.is_char sep) a = true -> Url.before sep a = a.
Proof.
  induction a as [|x a IH]; [reflexivity|]. simpl.
  intros [Hx Ha]%andb_true_iff. apply negb_true_iff in Hx.
  rewrite Hx. f_equal. by apply IH.
Qed.

Lemma before_app (sep : ascii) (a b : string) :
  free_of (Url.is_char sep) a = true ->
  Url.before sep (a +:+ String sep b) = a.
Proof.
  induction a as [|x a IH].
  - intros _. rewrite app_empty. simpl.
    unfold Url.is_char. by rewrite bool_decide_eq_true_2.
  - rewrite app_String. simpl.
    intros [Hx Ha]%andb_true_iff. apply negb_true_iff in Hx.
    rewrite Hx. f_equal. by apply IH.
Qed.

Lemma after_app (sep : ascii) (a b : string) :
  free_of (Url.is_char sep) a = true ->
  Url.after sep (a +:+ String sep b) = b.
Proof.
  induction a as [|x a IH].
  - intros _. rewrite app_empty. simpl.
    unfold Url.is_char. by rewrite bool_decide_eq_true_2.
  - rewrite app_String. simpl.
    intros [Hx Ha]%andb_true_iff. apply negb_true_iff in Hx.
    rewrite Hx. by apply IH.
Qed.

Lemma split_last_free (sep : ascii) (a : string) :
  free_of (Url.is_char sep) a = true -> Url.split_last sep a = None.
Proof.
  induction a as [|x a IH]; [reflexivity|]. simpl.
  intros [Hx Ha]%andb_true_iff. apply negb_true_iff in Hx.
  by rewrite IH, Hx.
Qed.

Lemma split_last_app (sep : ascii) (a b : string) :
  free_of (Url.is_char sep) b = true ->
  Url.split_last sep (a +:+ String sep b) = Some (a, b).
Proof.
  intros Hb. induction a as [|x a IH].
  - rewrite app_empty. simpl. rewrite split_last_free by done.
    unfold Url.is_char. by rewrite bool_decide_eq_true_2.
  - rewrite app_String. simpl. by rewrite IH.
Qed.

(** *** The digits of a port *)

Lemma is_digit_pretty_N_char (x : N) : Url.is_digit (pretty_N_char x) = true.
Proof. unfold pretty_N_char. by repeat case_match. Qed.

Lemma free_of_pretty_N_go (bad : ascii -> bool) (x : N) (s : string) :
  (forall c : ascii, Url.is_digit c = true -> bad c = false) ->
  free_of bad s = true ->
  free_of bad (pretty_N_go x s) = true.
Proof.
  intros Hbad. revert s.
  induction (N.lt_wf_0 x) as [x _ IH]; intros s Hs.
  destruct (decide (x = 0%N)) as [->|Hx]; [by rewrite pretty_N_go_0|].
  rewrite pretty_N_go_step by lia.
  apply IH; [apply N.div_lt; lia|].
  simpl. rewrite Hs, andb_true_r. apply negb_true_iff, Hbad.
  apply is_digit_pretty_N_char.
Qed.

Lemma free_of_pretty_positive (bad : ascii -> bool) (p : positive) :
  (forall c : ascii, Url.is_digit c = true -> bad c = false) ->
  free_of bad (pretty p) = true.
Proof.
  intros Hbad. unfold pretty, pretty_positive, pretty, pretty_N.
  case_decide; [done|]. by apply free_of_pretty_N_go.
Qed.

(** A port that is not negative prints as digits. *)
Lemma free_of_pretty_port (bad : ascii -> bool) (port : Z) :
  0 <= port ->
  (forall c : ascii, Url.is_digit c = true -> bad c = false) ->
  free_of bad (pretty port) = true.
Proof.
  intros Hport Hbad. destruct port as [|p|p]; [|by apply free_of_pretty_positive|lia].
  unfold pretty, pretty_Z. simpl. by rewrite Hbad.
Qed.

(** Any port prints as digits after a minus sign at most. *)
Lemma free_of_pretty_Z (bad : ascii -> bool) (z : Z) :
  bad "-"%char = false ->
  (forall c : ascii, Url.is_digit c = true -> bad c = false) ->
  free_of bad (pretty z) = true.
Proof.
  intros Hdash Hbad. destruct z as [|p|p]; unfold pretty, pretty_Z.
  - simpl. by rewrite Hbad.
  - by apply free_of_pretty_positive.
  - rewrite free_of_app, free_of_pretty_positive, andb_true_r by done.
    simpl. by rewrite Hdash.
Qed.

(** A negative port does not print as digits. *)
Lemma pretty_negative_not_digits (port : Z) :
  port < 0 -> Url.all_of Url.is_digit (pretty port) = false.
Proof.
  intros Hport. destruct port as [|p|p]; [lia|lia|]. reflexivity.
Qed.

(** *** Hosts and user names *)

Lemma all_of_free (good bad : ascii -> bool) (s : string) :
  (forall c : ascii, good c = true -> bad c = false) ->
  Url.all_of good s = true -> free_of bad s = true.
Proof.
  intros Himpl. apply free_of_impl. intros c Hc.
  destruct (good c) eqn:Hgood; [|reflexivity]. by rewrite (Himpl c Hgood) in Hc.
Qed.

Lemma all_of_impl (good1 good2 : ascii -> bool) (s : string) :
  (forall c : ascii, good1 c = true -> good2 c = true) ->
  Url.all_of good1 s = true -> Url.all_of good2 s = true.
Proof.
  intros Himpl. apply free_of_impl. intros c Hc.
  destruct (good1 c) eqn:Hgood; [|reflexivity]. by rewrite (Himpl c Hgood) in Hc.
Qed.

Lemma all_of_app (good : ascii -> bool) (a b : string) :
  Url.all_of good (a +:+ b) = Url.all_of good a && Url.all_of good b.
Proof. apply free_of_app. Qed.


Lemma parseHost_with_port (name port : string) :
  Url.hostname name = true ->
  free_of (Url.is_char ":") port = true ->
  free_of (Url.one_of "[]") port = true ->
  Url.parseHost (name +:+ ":" +:+ port) =
    if Url.all_of Url.is_digit port then Url.Ok (name +:+ ":" +:+ port)
    else Url.Rejected.
Proof.
  intros Hname Hport Hplain. unfold Url.parseHost.
  rewrite (app_char ":" port), split_last_app by done.
  rewrite <- (app_char ":" port), !free_of_app, Hplain.
  rewrite (all_of_free Url.hostname_byte (Url.one_of "[]") name) by (by_bytes || done).
  simpl.
  destruct (Url.all_of Url.is_digit port) eqn:Hdigits; [|reflexivity].
  simpl.
  rewrite (all_of_free Url.hostname_byte (Url.is_char ":") name) by (by_bytes || done).
  simpl. rewrite !all_of_app.
  rewrite (all_of_impl Url.hostname_byte Url.host_byte name) by (by_bytes || done).
  rewrite (all_of_impl Url.is_digit Url.host_byte port) by (by_bytes || done).
  reflexivity.
Qed.

Lemma userOf_pair (username password : string) :
  free_of (Url.is_char ":") username = true ->
  Url.userOf (username +:+ ":" +:+ password) = (username, Some password).
Proof.
  intros Hu. unfold Url.userOf.
  rewrite (app_char ":" password), free_of_app, Hu.
  change (free_of (Url.is_char ":") (String ":" password)) with false.
  cbv iota beta. simpl andb. cbv iota.
  by rewrite before_app, after_app.
Qed.

(** The authority with a user: the host is read after the last [@]. *)
Lemma parseAuthority_userinfo (userinfo hostport : string) :
  free_of (Url.is_char "@") hostport = true ->
  Url.parseAuthority (userinfo +:+ "@" +:+ hostport) =
    match Url.parseHost hostport with
    | Url.Ok host =>
        if Url.validUserinfo userinfo
        then Url.Ok (Url.mkURL (Some (Url.userOf userinfo)) host)
        else Url.Rejected
    | Url.Rejected => Url.Rejected
    | Url.Unmodelled => Url.Unmodelled
    end.
Proof.
  intros Hhost. unfold Url.parseAuthority.
  by rewrite (app_char "@" hostport), split_last_app.
Qed.

(** [Parse] on [postgres://], an authority and what follows it: nothing, or a
    path that starts with the slash. *)
Lemma Parse_authority (authority tail : string) :
  free_of (fun c => Url.one_of "%#?" c || Url.is_ctl c) (authority +:+ tail) = true ->
  free_of (Url.is_char "/") authority = true ->
  tail = "" \/ (exists path, tail = "/" +:+ path) ->
  Url.Parse ("postgres://" +:+ authority +:+ tail) = Url.parseAuthority authority.
Proof.
  intros Hfree Hauth Htail.
  assert (Hwhole : forall bad : ascii -> bool,
    (forall c : ascii, bad c = true -> Url.one_of "%#?" c || Url.is_ctl c = true) ->
    bad "p"%char = false -> bad "o"%char = false -> bad "s"%char = false ->
    bad "t"%char = false -> bad "g"%char = false -> bad "r"%char = false ->
    bad "e"%char = false -> bad ":"%char = false -> bad "/"%char = false ->
    free_of bad ("postgres://" +:+ authority +:+ tail) = true).
  { intros bad Hbad Hp Ho Hs Ht Hg Hr He Hc Hsl.
    rewrite free_of_app, (free_of_impl _ bad (authority +:+ tail) Hbad Hfree).
    simpl. by rewrite Hp, Ho, Hs, Ht, Hg, Hr, He, Hc, Hsl. }
  unfold Url.Parse.
  rewrite (Hwhole (Url.is_char "%")) by (by_bytes || reflexivity). simpl negb. cbv iota.
  rewrite before_free by (apply Hwhole; by_bytes || reflexivity).
  unfold Url.stringContainsCTLByte.
  rewrite (Hwhole Url.is_ctl) by (by_bytes || reflexivity). simpl negb. cbv iota.
  change (Url.strip_prefix "postgres:" ("postgres://" +:+ authority +:+ tail))
    with (Some ("//" +:+ authority +:+ tail)).
  cbv iota beta.
  rewrite before_free.
  2:{ rewrite free_of_app.
      rewrite (free_of_impl (fun c => Url.one_of "%#?" c || Url.is_ctl c)
                 (Url.is_char "?") (authority +:+ tail)) by (by_bytes || done).
      reflexivity. }
  change (Url.strip_prefix "//" ("//" +:+ authority +:+ tail))
    with (Some (authority +:+ tail)).
  cbv iota beta. f_equal.
  destruct Htail as [->|[path ->]].
  - rewrite string_app_empty_r. by apply before_free.
  - rewrite (app_char "/" path). by apply before_app.
Qed.

(** *** The connection string, parsed *)

(** With a user name and a password of plain bytes the URL names the loopback
    address, the port and these credentials; a negative port is refused. *)
Lemma Parse_connString_loopback (username password : string) (port : Z) :
  Url.plain_userinfo username = true ->
  free_of (Url.is_char ":") username = true ->
  Url.plain_userinfo password = true ->
  Url.Parse (connString username password port) =
    if 0 <=? port
    then Url.Ok (Url.mkURL (Some (username, Some password))
                           ("127.0.0.1:" +:+ pretty port))
    else Url.Rejected.
Proof.
  intros Hu Hcolon Hp. unfold connString.
  set (authority := username +:+ ":" +:+ password +:+ "@127.0.0.1:" +:+ pretty port).
  rewrite <- (string_app_empty_r authority).
  assert (Hfree : forall bad : ascii -> bool,
    (forall c : ascii, Url.plain_byte c = true -> bad c = false) ->
    (forall c : ascii, Url.is_digit c = true -> bad c = false) ->
    bad "-"%char = false -> bad ":"%char = false -> bad "@"%char = false ->
    bad "."%char = false ->
    free_of bad authority = true).
  { intros bad Hplain Hdigit Hdash Hc Hat Hdot. unfold authority.
    rewrite !free_of_app.
    rewrite (all_of_free Url.plain_byte bad username Hplain Hu).
    rewrite (all_of_free Url.plain_byte bad password Hplain Hp).
    rewrite (free_of_pretty_Z bad port Hdash Hdigit).
    simpl. rewrite Hc, Hat, Hdot.
    by rewrite (Hdigit "0"%char eq_refl), (Hdigit "1"%char eq_refl),
      (Hdigit "2"%char eq_refl), (Hdigit "7"%char eq_refl). }
  rewrite Parse_authority; cycle 1.
  { rewrite string_app_empty_r. apply Hfree; by_bytes || reflexivity. }
  { apply Hfree; by_bytes || reflexivity. }
  { by left. }
  unfold authority.
  replace (username +:+ ":" +:+ password +:+ "@127.0.0.1:" +:+ pretty port)
    with ((username +:+ ":" +:+ password) +:+ "@" +:+ ("127.0.0.1" +:+ ":" +:+ pretty port))
    by (rewrite !string_app_assoc; reflexivity).
  rewrite parseAuthority_userinfo; cycle 1.
  { rewrite !free_of_app.
    rewrite (free_of_pretty_Z (Url.is_char "@") port) by (by_bytes || reflexivity).
    reflexivity. }
  rewrite parseHost_with_port; cycle 1.
  { reflexivity. }
  { apply free_of_pretty_Z; by_bytes || reflexivity. }
  { apply free_of_pretty_Z; by_bytes || reflexivity. }
  destruct (Z.leb_spec 0 port) as [Hport|Hport].
  - unfold Url.all_of at 1.
    rewrite (free_of_pretty_port _ port Hport) by (intros c ->; reflexivity).
    assert (Hvalid : Url.validUserinfo (username +:+ ":" +:+ password) = true).
    { unfold Url.validUserinfo. rewrite !all_of_app.
      rewrite (all_of_impl Url.plain_byte Url.userinfo_byte username) by (by_bytes || done).
      rewrite (all_of_impl Url.plain_byte Url.userinfo_byte password) by (by_bytes || done).
      reflexivity. }
    rewrite Hvalid. by rewrite userOf_pair.
  - by rewrite pretty_negative_not_digits.
Qed.


(** ** Paths of the log files *)



Lemma elements_from_free (cur e rest : string) :
  free_of Filepath.is_separator e = true ->
  Filepath.elements_from cur (e +:+ rest) = Filepath.elements_from (cur +:+ e) rest.
Proof.
  revert cur. induction e as [|x e IH]; intros cur.
  - intros _. by rewrite app_empty, string_app_empty_r.
  - rewrite app_String. simpl.
    intros [Hx He]%andb_true_iff. apply negb_true_iff in Hx.
    unfold Filepath.is_separator in Hx. rewrite Hx.
    rewrite IH by done. f_equal. apply string_app_assoc.
Qed.

Lemma elements_from_separator (cur rest : string) :
  Filepath.elements_from cur ("/" +:+ rest) = cur :: Filepath.elements_from "" rest.
Proof. reflexivity. Qed.

Lemma plain_free (e : string) :
  Filepath.plain e = true -> free_of Filepath.is_separator e = true.
Proof.
  unfold Filepath.plain. rewrite !andb_true_iff. by intros [[[? _] _] _].
Qed.

(** The elements of plain names joined by separators are these names. *)
Lemma elements_from_join_sep (e : string) (es : list string) :
  Forall (fun x => Filepath.plain x = true) (e :: es) ->
  Filepath.elements_from "" (Filepath.join_sep (e :: es)) = e :: es.
Proof.
  revert e. induction es as [|e' es IH]; intros e Hplain.
  - simpl. apply Forall_cons in Hplain as [He _].
    rewrite <- (string_app_empty_r e) at 1.
    rewrite elements_from_free by by apply plain_free. reflexivity.
  - apply Forall_cons in Hplain as [He Hes].
    change (Filepath.join_sep (e :: e' :: es))
      with (e +:+ "/" +:+ Filepath.join_sep (e' :: es)).
    rewrite elements_from_free by by apply plain_free.
    rewrite elements_from_separator, app_empty. f_equal. by apply IH.
Qed.

Lemma clean_step_plain (rooted : bool) (out : list string) (e : string) :
  Filepath.plain e = true -> Filepath.clean_step rooted out e = e :: out.
Proof.
  unfold Filepath.plain, Filepath.clean_step. rewrite !andb_true_iff.
  intros [[[_ H1%negb_true_iff] H2%negb_true_iff] H3%negb_true_iff].
  by rewrite H1, H2, H3.
Qed.

Lemma fold_clean_step_plain (rooted : bool) (es out : list string) :
  Forall (fun x => Filepath.plain x = true) es ->
  fold_left (Filepath.clean_step rooted) es out = rev es ++ out.
Proof.
  revert out. induction es as [|e es IH]; intros out Hplain; [reflexivity|].
  apply Forall_cons in Hplain as [He Hes]. simpl.
  rewrite clean_step_plain by done. rewrite IH by done.
  by rewrite <- app_assoc.
Qed.

(** [Clean] leaves a rooted path of plain names as it is. *)
Lemma Clean_plain (es : list string) :
  es <> [] ->
  Forall (fun x => Filepath.plain x = true) es ->
  Filepath.Clean ("/" +:+ Filepath.join_sep es) = "/" +:+ Filepath.join_sep es.
Proof.
  intros Hne Hplain. destruct es as [|e es]; [done|].
  unfold Filepath.Clean, Filepath.elements.
  rewrite elements_from_separator, elements_from_join_sep by done.
  change (Filepath.IsAbs ("/" +:+ Filepath.join_sep (e :: es))) with true.
  rewrite bool_decide_eq_false_2 by discriminate.
  change (fold_left (Filepath.clean_step true) ("" :: e :: es) [])
    with (fold_left (Filepath.clean_step true) (e :: es) []).
  rewrite fold_clean_step_plain by done.
  by rewrite app_nil_r, rev_involutive.
Qed.

Lemma join_sep_snoc (es : list string) (e : string) :
  es <> [] ->
  Filepath.join_sep (es ++ [e]) = Filepath.join_sep es +:+ "/" +:+ e.
Proof.
  intros Hne. induction es as [|x es IH]; [done|].
  destruct es as [|y es]; [reflexivity|].
  change (Filepath.join_sep ((x :: y :: es) ++ [e]))
    with (x +:+ "/" +:+ Filepath.join_sep ((y :: es) ++ [e])).
  rewrite IH by done.
  change (Filepath.join_sep (x :: y :: es))
    with (x +:+ "/" +:+ Filepath.join_sep (y :: es)).
  by rewrite !string_app_assoc.
Qed.

(** A file name with the suffix [.log] is a plain name when the name has no
    separator. *)
Lemma plain_log_name (name : string) :
  free_of Filepath.is_separator name = true ->
  Filepath.plain (name +:+ ".log") = true.
Proof.
  intros Hfree. unfold Filepath.plain.
  rewrite free_of_app, Hfree. simpl.
  rewrite !bool_decide_eq_false_2; [reflexivity| | |].
  - destruct name as [|a [|b [|c name]]]; rewrite ?app_String, ?app_empty; discriminate.
  - destruct name as [|a [|b name]]; rewrite ?app_String, ?app_empty; discriminate.
  - destruct name as [|a name]; rewrite ?app_String, ?app_empty; discriminate.
Qed.

(** In a log directory that is a rooted path of plain names, the log of a
    container whose name has no separator is at [<logDir>/<name>.log], letter
    for letter. *)
Lemma log_path_plain (dirs : list string) (name : string) :
  dirs <> [] ->
  Forall (fun x => Filepath.plain x = true) dirs ->
  free_of Filepath.is_separator name = true ->
  Filepath.Join ["/" +:+ Filepath.join_sep dirs; name +:+ ".log"] =
    ("/" +:+ Filepath.join_sep dirs) +:+ "/" +:+ name +:+ ".log".
Proof.
  intros Hne Hdirs Hname.
  unfold Filepath.Join. rewrite bool_decide_eq_false_2 by discriminate.
  change (Filepath.join_sep ["/" +:+ Filepath.join_sep dirs; name +:+ ".log"])
    with (("/" +:+ Filepath.join_sep dirs) +:+ "/" +:+ name +:+ ".log").
  rewrite string_app_assoc. rewrite <- join_sep_snoc by done.
  apply Clean_plain.
  - by destruct dirs.
  - apply Forall_app. split; [done|].
    apply Forall_cons. split; [by apply plain_log_name|apply Forall_nil_2].
Qed.

Example log_path_db1 :
  Filepath.Join ["/var/log/hydra"; "db1" +:+ ".log"] = "/var/log/hydra/db1.log".
Proof. reflexivity. Qed.

(** The path is cleaned: a separator at the end of the directory is not
    doubled. *)
Example log_path_trailing_separator :
  Filepath.Join ["/var/log/hydra/"; "db1" +:+ ".log"] = "/var/log/hydra/db1.log".
Proof. reflexivity. Qed.

(** ** The log directory check *)

Section Validation.

(** C5: a log directory that is neither empty nor absolute makes
    [MustHaveValidContainerLogDir] end the whole process with exit code 1
    after printing its message, and whatever the program would do next is not
    done: no call is made and the state of the test is as it was.  For the
    empty string and for an absolute path the check returns and changes
    nothing. *)
Theorem MustHaveValidContainerLogDir_aborts_or_returns (logDir : string) (s : State) :
  (logDir <> "" /\ Filepath.IsAbs logDir = false ->
     let s' := mkState (now s) (files s) (calls s) (cleanups s) (failed s) (output s)
                 (stderr s ++ ["the container log dir must be absolute, got " +:+ logDir]) in
     MustHaveValidContainerLogDir logDir s = (Exit 1, s') /\
     forall (A : Type) (next : M A),
       (MustHaveValidContainerLogDir logDir ;;; next) s = (Exit 1, s')) /\
  (logDir = "" \/ Filepath.IsAbs logDir = true ->
     MustHaveValidContainerLogDir logDir s = (Returned tt, s) /\
     forall (A : Type) (next : M A),
       (MustHaveValidContainerLogDir logDir ;;; next) s = next s).
Proof.
  unfold MustHaveValidContainerLogDir, bind. split.
  - intros [Hne Habs]. rewrite Habs.
    rewrite bool_decide_eq_false_2 by done. simpl. split; [reflexivity|].
    intros A next. reflexivity.
  - intros [-> | Habs].
    + simpl. split; [reflexivity|]. intros A next. reflexivity.
    + rewrite Habs. rewrite andb_false_r. split; [reflexivity|].
      intros A next. reflexivity.
Qed.

End Validation.

(** ** The container lifecycle controller *)

Section Controller.

Variable W : World.

(** Unfolds a run of the controller down to the answers of the world. *)
Ltac step_controller :=
  unfold TerminateContainer, writeLogs, bind, exec_CombinedOutput, os_WriteFile,
    t_Fatalf, ret; simpl.

(** Without a log directory [writeLogs] does nothing. *)
Lemma writeLogs_skipped (ctx : Context) (name : string) (s : State) :
  writeLogs W ctx name "" s = (Returned tt, s).
Proof. reflexivity. Qed.

(** [writeLogs] with a log directory: fetch, then write, stopping at the first
    failure. *)
Lemma writeLogs_cases (ctx : Context) (name logDir : string) (s : State) :
  logDir <> "" ->
  let logs := CombinedOutput ctx ["docker"; "logs"; name] in
  let out := fst (run_command W s ctx ["docker"; "logs"; name]) in
  let path := Filepath.Join [logDir; name +:+ ".log"] in
  let s1 := record W logs s in
  let s2 := record W (WriteFile path out log_file_mode) s1 in
  writeLogs W ctx name logDir s =
    match snd (run_command W s ctx ["docker"; "logs"; name]) with
    | Some e =>
        (FailNow, fatal ("unable to fetch container log " +:+ Error e +:+ ": " +:+ out) s1)
    | None =>
        match write_error W s1 path out log_file_mode with
        | Some e => (FailNow, fatal ("unable to write container log: " +:+ Error e) s2)
        | None => (Returned tt, store W path out log_file_mode s2)
        end
    end.
Proof.
  intros HlogDir. step_controller. rewrite bool_decide_eq_false_2 by done.
  destruct (run_command W s ctx _) as [out [e|]]; simpl; [reflexivity|].
  destruct (write_error W _ _ _ _); reflexivity.
Qed.

(** Without a log directory only the termination command is left. *)
Lemma TerminateContainer_no_logDir (ctx : Context) (name : string) (kill : bool) (s : State) :
  name <> "" ->
  let term := CombinedOutput ctx (termCmd kill name) in
  TerminateContainer W ctx name "" kill s =
    match run_command W s ctx (termCmd kill name) with
    | (out, Some e) =>
        (FailNow,
         fatal ("unable to terminate container " +:+ Error e +:+ ": " +:+ out)
               (record W term s))
    | (out, None) => (Returned tt, record W term s)
    end.
Proof.
  intros Hname. step_controller. rewrite bool_decide_eq_false_2 by done.
  simpl. destruct (run_command W s ctx _) as [out [e|]]; reflexivity.
Qed.

(** The termination starts from the state the log capture leaves, and only
    when the capture returned. *)
Lemma TerminateContainer_after_writeLogs
    (ctx : Context) (name logDir : string) (kill : bool) (s : State) :
  name <> "" ->
  TerminateContainer W ctx name logDir kill s =
    match writeLogs W ctx name logDir s with
    | (Returned _, s1) => TerminateContainer W ctx name "" kill s1
    | (FailNow, s1) => (FailNow, s1)
    | (Exit code, s1) => (Exit code, s1)
    end.
Proof.
  intros Hname. unfold TerminateContainer at 1 2, bind.
  rewrite bool_decide_eq_false_2 by done.
  destruct (writeLogs W ctx name logDir s) as [[[]| |code] s1]; reflexivity.
Qed.

(** C6: with an empty container name [TerminateContainer] returns at once,
    for every log directory, context and kill flag: the state is unchanged
    (no file is written, the test has not failed) and no call was made. *)
Theorem TerminateContainer_empty_name_noop
    (ctx : Context) (logDir : string) (kill : bool) (s : State) :
  TerminateContainer W ctx "" logDir kill s = (Returned tt, s) /\
  issued (TerminateContainer W ctx "" logDir kill) s = [].
Proof.
  split; [reflexivity|]. by read_issued.
Qed.

(** C7: for a container name that is not empty, the calls of a run are the
    calls of the log capture followed by one termination command when the
    capture returned, and by nothing when it failed.  The capture itself
    issues nothing without a log directory, and else [docker logs <name>]
    followed by the write when that command went through.  The termination
    command is [docker kill <name>] when [kill] is set and
    [docker stop --time 30 <name>] when it is not; whether it succeeds or
    fails no call follows it, so a [stop] that fails is not followed by a
    [kill] or by anything else. *)
Theorem TerminateContainer_termination_command
    (ctx : Context) (name logDir : string) (kill : bool) (s : State) :
  name <> "" ->
  let logs := CombinedOutput ctx ["docker"; "logs"; name] in
  let out := fst (run_command W s ctx ["docker"; "logs"; name]) in
  let write := WriteFile (Filepath.Join [logDir; name +:+ ".log"]) out log_file_mode in
  let capture := issued (writeLogs W ctx name logDir) s in
  termCmd true name = ["docker"; "kill"; name] /\
  termCmd false name = ["docker"; "stop"; "--time"; "30"; name] /\
  capture =
    (if bool_decide (logDir = "") then []
     else logs :: match snd (run_command W s ctx ["docker"; "logs"; name]) with
                  | None => [write]
                  | Some _ => []
                  end) /\
  issued (TerminateContainer W ctx name logDir kill) s =
    capture ++
    match fst (writeLogs W ctx name logDir s) with
    | Returned _ => [CombinedOutput ctx (termCmd kill name)]
    | _ => []
    end /\
  List.filter is_termination (issued (TerminateContainer W ctx name logDir kill) s) =
    match fst (writeLogs W ctx name logDir s) with
    | Returned _ => [CombinedOutput ctx (termCmd kill name)]
    | _ => []
    end.
Proof.
  intros Hname logs out write capture.
  split; [reflexivity|]. split; [reflexivity|].
  assert (Hterm : is_termination (CombinedOutput ctx (termCmd kill name)) = true)
    by (destruct kill; reflexivity).
  unfold capture, issued. rewrite TerminateContainer_after_writeLogs by done.
  destruct (decide (logDir = "")) as [->|HlogDir].
  - rewrite writeLogs_skipped. simpl.
    rewrite TerminateContainer_no_logDir by done.
    destruct (run_command W s ctx (termCmd kill name)) as [out' [e|]];
      read_issued; simpl in *; rewrite Hterm; auto.
  - rewrite writeLogs_cases by done. fold logs out write.
    rewrite (bool_decide_eq_false_2 (logDir = "")) by done.
    destruct (snd (run_command W s ctx ["docker"; "logs"; name])) as [e|].
    { read_issued. auto. }
    destruct (write_error W _ _ _ _) as [e|].
    { read_issued. auto. }
    rewrite TerminateContainer_no_logDir by done.
    destruct (run_command W _ ctx (termCmd kill name)) as [out' [e|]];
      read_issued; simpl in *; rewrite Hterm; auto.
Qed.

(** C1 (as amended): with a log directory and a container name that are not
    empty, a run fetches the log with [docker logs <name>], then writes the
    combined output of that command with one [os.WriteFile] to
    [filepath.Join(logDir, name + ".log")], asking for mode 0644, that is
    [rw-r--r--], then issues the termination command: its calls are these
    three in this order, cut short after the one that fails.  So the
    termination command is never issued before the log is fetched and
    written.  When the log command and the write go through all three calls
    are made, and afterwards the file holds the output whatever it held
    before and no other file has changed.  Its mode is 0644 less the bits of
    the umask when the write created it, 0644 itself under the umask 022;
    a file that was there keeps the mode it had.  The path is
    [<logDir>/<name>.log] letter for letter when the directory is a rooted
    path of plain names and the name has no separator. *)
Theorem TerminateContainer_captures_log_first
    (ctx : Context) (name logDir : string) (kill : bool) (s : State) :
  name <> "" ->
  logDir <> "" ->
  let logs := CombinedOutput ctx ["docker"; "logs"; name] in
  let out := fst (run_command W s ctx ["docker"; "logs"; name]) in
  let path := Filepath.Join [logDir; name +:+ ".log"] in
  let write := WriteFile path out log_file_mode in
  let term := CombinedOutput ctx (termCmd kill name) in
  let run := TerminateContainer W ctx name logDir kill in
  perm_bits log_file_mode = "rw-r--r--" /\
  (forall dirs : list string,
     dirs <> [] ->
     Forall (fun dir => Filepath.plain dir = true) dirs ->
     logDir = "/" +:+ Filepath.join_sep dirs ->
     free_of Filepath.is_separator name = true ->
     path = logDir +:+ "/" +:+ name +:+ ".log") /\
  (issued run s = [logs] \/
   issued run s = [logs; write] \/
   issued run s = [logs; write; term]) /\
  (term ∈ issued run s ->
     issued run s = [logs; write; term] /\
     content <$> files (snd (run s)) !! path = Some out) /\
  (snd (run_command W s ctx ["docker"; "logs"; name]) = None ->
   write_error W (record W logs s) path out log_file_mode = None ->
     issued run s = [logs; write; term] /\
     List.filter is_write (issued run s) = [write] /\
     content <$> files (snd (run s)) !! path = Some out /\
     (forall file : string,
        file <> path -> files (snd (run s)) !! file = files s !! file) /\
     (forall old : file,
        files s !! path = Some old ->
        files (snd (run s)) !! path = Some (mkFile out (mode old))) /\
     (files s !! path = None ->
        files (snd (run s)) !! path =
          Some (mkFile out (Z.land log_file_mode (Z.lnot (umask W)))) /\
        (umask W = 18 -> files (snd (run s)) !! path = Some (mkFile out log_file_mode)))).
Proof.
  intros Hname HlogDir logs out path write term run.
  assert (Hne : term <> logs).
  { unfold logs, term, termCmd. destruct kill; congruence. }
  assert (Hcases :
    match snd (run_command W s ctx ["docker"; "logs"; name]) with
    | Some _ => issued run s = [logs]
    | None =>
        match write_error W (record W logs s) path out log_file_mode with
        | Some _ => issued run s = [logs; write]
        | None =>
            issued run s = [logs; write; term] /\
            files (snd (run s)) =
              <[path := written W (files s !! path) out log_file_mode]> (files s)
        end
    end).
  { unfold issued, run. rewrite TerminateContainer_after_writeLogs by done.
    rewrite writeLogs_cases by done. fold logs out path write.
    destruct (snd (run_command W s ctx _)); [by read_issued|].
    destruct (write_error W _ _ _ _); [by read_issued|].
    rewrite TerminateContainer_no_logDir by done.
    destruct (run_command W _ ctx (termCmd kill name)) as [out' [e|]];
      read_issued; done. }
  assert (Hcontent : forall old : option file,
    content (written W old out log_file_mode) = out) by (by intros [old|]).
  split; [reflexivity|]. split; [|split; [|split]].
  - intros dirs Hdirs Hplain -> Hfree. by apply log_path_plain.
  - destruct (snd (run_command W s ctx _)); [by left|].
    destruct (write_error W _ _ _ _); [right; by left|].
    right; right. apply Hcases.
  - intros Hterm.
    destruct (snd (run_command W s ctx _)).
    { rewrite Hcases in Hterm. apply list_elem_of_singleton in Hterm. done. }
    destruct (write_error W _ _ _ _).
    { rewrite Hcases in Hterm.
      apply elem_of_cons in Hterm as [?|Hterm]; [done|].
      apply list_elem_of_singleton in Hterm. done. }
    destruct Hcases as [Hissued Hfiles]. split; [exact Hissued|].
    rewrite Hfiles, lookup_insert_eq. simpl. by rewrite Hcontent.
  - intros Hlogs Hwrite. rewrite Hlogs, Hwrite in Hcases.
    destruct Hcases as [Hissued Hfiles]. rewrite Hissued, Hfiles.
    split; [reflexivity|]. split; [reflexivity|]. split; [|split; [|split]].
    + rewrite lookup_insert_eq. simpl. by rewrite Hcontent.
    + intros file Hfile. by rewrite lookup_insert_ne.
    + intros old Hold. by rewrite lookup_insert_eq, Hold.
    + intros Hnew. rewrite lookup_insert_eq, Hnew. split; [reflexivity|].
      intros Humask. simpl. by rewrite Humask.
Qed.

(** C8: the three ways a run for a container name that is not empty can
    fail, and nothing more.  The run never ends the process.  When the log
    command fails the test fails at once with a message that holds the error
    and the combined output of the command, and neither the write nor the
    termination is tried.  When the write fails the test fails at once with
    the error in the message, and the termination is not tried.  When the
    termination command fails the test fails with a message that holds the
    error and the combined output of that command.  No call is made twice in
    a run. *)
Theorem TerminateContainer_failures_fatal
    (ctx : Context) (name logDir : string) (kill : bool) (s : State) :
  name <> "" ->
  let logs := CombinedOutput ctx ["docker"; "logs"; name] in
  let term := CombinedOutput ctx (termCmd kill name) in
  let path := Filepath.Join [logDir; name +:+ ".log"] in
  let run := TerminateContainer W ctx name logDir kill in
  (forall code : Z, fst (run s) <> Exit code) /\
  (forall (out : string) (e : error),
     logDir <> "" ->
     run_command W s ctx ["docker"; "logs"; name] = (out, Some e) ->
     run s =
       (FailNow,
        fatal ("unable to fetch container log " +:+ Error e +:+ ": " +:+ out)
              (record W logs s)) /\
     issued run s = [logs]) /\
  (forall (out : string) (e : error),
     logDir <> "" ->
     run_command W s ctx ["docker"; "logs"; name] = (out, None) ->
     write_error W (record W logs s) path out log_file_mode = Some e ->
     run s =
       (FailNow,
        fatal ("unable to write container log: " +:+ Error e)
              (record W (WriteFile path out log_file_mode) (record W logs s))) /\
     issued run s = [logs; WriteFile path out log_file_mode]) /\
  (forall (s1 : State) (out : string) (e : error),
     writeLogs W ctx name logDir s = (Returned tt, s1) ->
     run_command W s1 ctx (termCmd kill name) = (out, Some e) ->
     run s =
       (FailNow,
        fatal ("unable to terminate container " +:+ Error e +:+ ": " +:+ out)
              (record W term s1)) /\
     issued run s = issued (writeLogs W ctx name logDir) s ++ [term]) /\
  (fst (run s) = Returned tt ->
     failed (snd (run s)) = failed s /\ output (snd (run s)) = output s) /\
  NoDup (issued run s).
Proof.
  intros Hname logs term path run.
  assert (Hne : logs <> term).
  { unfold logs, term, termCmd. destruct kill; congruence. }
  split; [|split; [|split; [|split; [|split]]]].
  - intros code. unfold run. rewrite TerminateContainer_after_writeLogs by done.
    destruct (decide (logDir = "")) as [->|HlogDir].
    + rewrite writeLogs_skipped, TerminateContainer_no_logDir by done.
      destruct (run_command W s ctx _) as [out [e|]]; done.
    + rewrite writeLogs_cases by done.
      destruct (snd (run_command W s ctx _)); [done|].
      destruct (write_error W _ _ _ _); [done|].
      rewrite TerminateContainer_no_logDir by done.
      destruct (run_command W _ ctx (termCmd kill name)) as [out [e|]]; done.
  - intros out e HlogDir Hlogs.
    assert (Hrun : run s = (FailNow,
      fatal ("unable to fetch container log " +:+ Error e +:+ ": " +:+ out)
            (record W logs s))).
    { unfold run. rewrite TerminateContainer_after_writeLogs by done.
      rewrite writeLogs_cases by done. by rewrite Hlogs. }
    split; [done|]. unfold issued. rewrite Hrun. by read_issued.
  - intros out e HlogDir Hlogs Hwrite.
    assert (Hrun : run s = (FailNow,
      fatal ("unable to write container log: " +:+ Error e)
            (record W (WriteFile path out log_file_mode) (record W logs s)))).
    { unfold run. rewrite TerminateContainer_after_writeLogs by done.
      rewrite writeLogs_cases by done. rewrite Hlogs. simpl.
      fold logs path. by rewrite Hwrite. }
    split; [done|]. unfold issued. rewrite Hrun. by read_issued.
  - intros s1 out e Hcapture Hterm.
    assert (Hrun : run s = (FailNow,
      fatal ("unable to terminate container " +:+ Error e +:+ ": " +:+ out)
            (record W term s1))).
    { unfold run. rewrite TerminateContainer_after_writeLogs by done.
      rewrite Hcapture, TerminateContainer_no_logDir by done. by rewrite Hterm. }
    split; [done|]. unfold issued at 1. rewrite Hrun. unfold issued.
    rewrite Hcapture. simpl.
    destruct (decide (logDir = "")) as [->|HlogDir].
    + rewrite writeLogs_skipped in Hcapture. injection Hcapture as <-.
      by read_issued.
    + rewrite writeLogs_cases in Hcapture by done.
      destruct (snd (run_command W s ctx _)); [done|].
      destruct (write_error W _ _ _ _); [done|].
      injection Hcapture as <-. by read_issued.
  - unfold run. rewrite TerminateContainer_after_writeLogs by done.
    destruct (decide (logDir = "")) as [->|HlogDir].
    + rewrite writeLogs_skipped, TerminateContainer_no_logDir by done.
      destruct (run_command W s ctx _) as [out [e|]]; done.
    + rewrite writeLogs_cases by done.
      destruct (snd (run_command W s ctx _)); [done|].
      destruct (write_error W _ _ _ _); [done|].
      rewrite TerminateContainer_no_logDir by done.
      destruct (run_command W _ ctx (termCmd kill name)) as [out [e|]]; done.
  - unfold issued, run. rewrite TerminateContainer_after_writeLogs by done.
    destruct (decide (logDir = "")) as [->|HlogDir].
    + rewrite writeLogs_skipped, TerminateContainer_no_logDir by done.
      destruct (run_command W s ctx _) as [out [e|]]; read_issued;
        apply NoDup_singleton.
    + rewrite writeLogs_cases by done.
      destruct (snd (run_command W s ctx _)).
      { read_issued. apply NoDup_singleton. }
      destruct (write_error W _ _ _ _).
      { read_issued. apply NoDup_cons. split; [distinct|apply NoDup_singleton]. }
      rewrite TerminateContainer_no_logDir by done.
      destruct (run_command W _ ctx (termCmd kill name)) as [out [e|]];
        read_issued; fold logs term;
        (apply NoDup_cons; split;
         [ distinct
         | apply NoDup_cons; split; [distinct|apply NoDup_singleton] ]).
Qed.

End Controller.

(** ** The readiness prober *)

Section Prober.

Variable W : World.

Lemma Deadline_WithDeadline (parent : Context) (d : Z) :
  Deadline (context_WithDeadline parent d) =
    Some (match Deadline parent with
          | Some cur => Z.min cur d
          | None => d
          end).
Proof.
  unfold context_WithDeadline.
  destruct (Deadline parent) as [cur|] eqn:Hcur; [|reflexivity].
  destruct (Z.ltb_spec cur d); simpl.
  - rewrite Hcur. f_equal. lia.
  - f_equal. lia.
Qed.

Lemma parent_of_WithDeadline (parent : Context) (d : Z) :
  parent_of (context_WithDeadline parent d) = Some parent.
Proof.
  unfold context_WithDeadline.
  destruct (Deadline parent) as [cur|]; [|reflexivity].
  destruct (cur <? d); reflexivity.
Qed.

(** A run of [CreatePGPool], down to the answers of the world. *)
Lemma CreatePGPool_cases (ctx : Context) (username password : string) (port : Z) (s : State) :
  let ctx' := context_WithTimeout (now s) ctx time_Second in
  let cs := connString username password port in
  let s1 := record W (pgxpoolNew ctx' cs) s in
  CreatePGPool W ctx username password port s =
    match new_pool W s ctx' cs with
    | inr cause =>
        (Returned (None, Some (Errorf_w (alloc W s1) "failed to construct new pool: " cause)),
         note (cancel ctx') s1)
    | inl pool =>
        let s2 := record W (poolPing ctx' pool) s1 in
        match ping W s1 ctx' pool with
        | Some cause =>
            (Returned (None, Some (Errorf_w_s (alloc W s2) ErrPgPoolConnect cause)),
             note (cancel ctx') s2)
        | None =>
            (Returned (Some pool, None),
             note (cancel ctx') (register (closePool pool) s2))
        end
    end.
Proof.
  intros ctx' cs s1.
  unfold CreatePGPool, bind, t_Helper, WithTimeout, defer, pgxpool_New, pool_Ping,
    t_Cleanup, cancel_func, fmt_Errorf_w, fmt_Errorf_w_s, ret; simpl.
  fold ctx' cs s1.
  destruct (new_pool W s ctx' cs) as [pool|cause]; [|reflexivity].
  destruct (ping W s1 ctx' pool) as [cause|]; reflexivity.
Qed.

(** Reads the run of [CreatePGPool] off [CreatePGPool_cases] in the three
    cases. *)
Ltac prober_cases pool cause :=
  unfold issued; rewrite CreatePGPool_cases; cbv zeta;
  destruct (new_pool W _ _ _) as [pool|cause];
  [ destruct (ping W _ _ pool) as [cause|] | ].

Ltac read_calls :=
  simpl; rewrite <- ?app_assoc; simpl; rewrite ?drop_app_length.

(** C2: [CreatePGPool] always returns, and the handle it returns is not nil
    exactly when [pgxpool.New] gave a pool and the ping of that pool gave no
    error.  A nil handle comes with an error and a handle with none, and a
    handle that is returned has been pinged in this run. *)
Theorem CreatePGPool_handle_iff_pinged
    (ctx : Context) (username password : string) (port : Z) (s : State) :
  let ctx' := context_WithTimeout (now s) ctx time_Second in
  let cs := connString username password port in
  let s1 := record W (pgxpoolNew ctx' cs) s in
  let run := CreatePGPool W ctx username password port in
  exists (handle : option Pool) (err : option error),
    fst (run s) = Returned (handle, err) /\
    (forall pool : Pool,
       handle = Some pool <->
       new_pool W s ctx' cs = inl pool /\ ping W s1 ctx' pool = None) /\
    (handle = None <-> is_Some err) /\
    (forall pool : Pool, handle = Some pool -> poolPing ctx' pool ∈ issued run s).
Proof.
  intros ctx' cs s1 run. unfold run, issued. rewrite CreatePGPool_cases.
  fold ctx' cs s1.
  destruct (new_pool W s ctx' cs) as [pool|cause] eqn:Hnew; cbv zeta.
  - destruct (ping W s1 ctx' pool) as [cause|] eqn:Hping.
    + exists None, (Some (Errorf_w_s (alloc W (record W (poolPing ctx' pool) s1))
                                     ErrPgPoolConnect cause)).
      split; [reflexivity|]. split; [|split]; [|by split; [eexists|]|done].
      intros pool'. split; [done|]. intros [[= <-] Hok]. congruence.
    + exists (Some pool), None.
      split; [reflexivity|]. split; [|split].
      * intros pool'. split; [by intros [= <-]|]. by intros [[= <-] _].
      * split; [done|]. by intros [? ?].
      * intros pool' [= <-]. read_calls.
        apply elem_of_cons. right. apply elem_of_cons. by left.
  - exists None, (Some (Errorf_w (alloc W s1) "failed to construct new pool: " cause)).
    split; [reflexivity|]. split; [|split]; [|by split; [eexists|]|done].
    intros pool'. split; [done|]. by intros [? _].
Qed.

(** C3: given that an error of [pgxpool.New] is not itself
    [ErrPgPoolConnect] (nor wraps it), the error [CreatePGPool] returns
    matches [ErrPgPoolConnect] exactly when the pool was built and its ping
    failed.  When [pgxpool.New] fails the error returned unwraps to the cause,
    matches the cause, does not match the sentinel, and no ping was made. *)
Theorem CreatePGPool_error_classes
    (ctx : Context) (username password : string) (port : Z) (s : State) :
  let ctx' := context_WithTimeout (now s) ctx time_Second in
  let cs := connString username password port in
  let s1 := record W (pgxpoolNew ctx' cs) s in
  let run := CreatePGPool W ctx username password port in
  (forall cause : error,
     new_pool W s ctx' cs = inr cause -> Is cause ErrPgPoolConnect = false) ->
  (forall (handle : option Pool) (e : error),
     fst (run s) = Returned (handle, Some e) ->
     (Is e ErrPgPoolConnect = true <->
      exists (pool : Pool) (cause : error),
        new_pool W s ctx' cs = inl pool /\ ping W s1 ctx' pool = Some cause)) /\
  (forall cause : error,
     new_pool W s ctx' cs = inr cause ->
     exists e : error,
       fst (run s) = Returned (None, Some e) /\
       Unwrap e = Some cause /\
       Is e cause = true /\
       Is e ErrPgPoolConnect = false /\
       forall (c : Context) (pool : Pool), poolPing c pool ∉ issued run s) /\
  (forall (pool : Pool) (cause : error),
     new_pool W s ctx' cs = inl pool -> ping W s1 ctx' pool = Some cause ->
     exists e : error,
       fst (run s) = Returned (None, Some e) /\
       Unwrap e = Some ErrPgPoolConnect /\
       Error e = "pgxpool did not connect: " +:+ Error cause).
Proof.
  intros ctx' cs s1 run Hlib. unfold run.
  split; [|split].
  - intros handle e. rewrite CreatePGPool_cases. fold ctx' cs s1.
    destruct (new_pool W s ctx' cs) as [pool|cause] eqn:Hnew.
    + cbv zeta. destruct (ping W s1 ctx' pool) as [cause|] eqn:Hping.
      * intros [= <- <-]. split; [by eauto|]. intros _. reflexivity.
      * done.
    + intros [= <- <-]. split.
      * intros His. simpl in His. rewrite (Hlib cause eq_refl) in His. done.
      * by intros (pool & cause' & ? & _).
  - intros cause Hnew. eexists. unfold issued.
    rewrite CreatePGPool_cases. fold ctx' cs s1. rewrite Hnew.
    split; [reflexivity|]. split; [reflexivity|]. split; [|split].
    + apply Is_Errorf_w, Is_refl.
    + simpl. by rewrite (Hlib cause Hnew).
    + intros c pool. read_calls. distinct.
  - intros pool cause Hnew Hping. eexists.
    rewrite CreatePGPool_cases. fold ctx' cs s1. rewrite Hnew. cbv zeta.
    rewrite Hping. done.
Qed.

(** C4: [CreatePGPool] registers one cleanup, the closing of the pool it
    returns, when it returns a pool, and none otherwise; the closure it
    registers does nothing but [pool.Close()].  The run itself never closes a
    pool: when the ping fails the pool that was built is neither closed nor
    registered for cleanup. *)
Theorem CreatePGPool_cleanup_iff_success
    (ctx : Context) (username password : string) (port : Z) (s : State) :
  let ctx' := context_WithTimeout (now s) ctx time_Second in
  let cs := connString username password port in
  let s1 := record W (pgxpoolNew ctx' cs) s in
  let run := CreatePGPool W ctx username password port in
  cleanups (snd (run s)) =
    match fst (run s) with
    | Returned (Some pool, _) => closePool pool :: cleanups s
    | _ => cleanups s
    end /\
  (forall (pool : Pool) (s0 : State),
     run_closure W (closePool pool) s0 = (Returned tt, record W (poolClose pool) s0)) /\
  (forall pool : Pool, poolClose pool ∉ issued run s) /\
  (forall (pool : Pool) (cause : error),
     new_pool W s ctx' cs = inl pool -> ping W s1 ctx' pool = Some cause ->
     cleanups (snd (run s)) = cleanups s /\ poolClose pool ∉ issued run s).
Proof.
  intros ctx' cs s1 run.
  assert (Hclosed : forall pool : Pool, poolClose pool ∉ issued run s).
  { intros pool'. unfold run. prober_cases pool cause; read_calls; distinct. }
  split; [|split; [|split]].
  - unfold run. rewrite CreatePGPool_cases. cbv zeta.
    destruct (new_pool W _ _ _) as [pool|cause]; [|reflexivity].
    destruct (ping W _ _ pool) as [cause|]; reflexivity.
  - reflexivity.
  - exact Hclosed.
  - intros pool cause Hnew Hping. split; [|apply Hclosed].
    unfold run. rewrite CreatePGPool_cases. fold ctx' cs s1. rewrite Hnew.
    cbv zeta. by rewrite Hping.
Qed.

(** C9: the context [CreatePGPool] works with is derived from the caller's
    and its deadline is the earlier of the caller's deadline and one second
    after the start of the call.  [pgxpool.New] is called with it, the ping
    too when a pool was built, and no call of the run is bound by any other
    context.  In a world whose calls give up at the deadline of their context
    the run is over one second after its start at the latest, and when the
    ping fails by then the error returned matches [ErrPgPoolConnect]. *)
Theorem CreatePGPool_bounded_by_timeout
    (ctx : Context) (username password : string) (port : Z) (s : State) :
  let ctx' := context_WithTimeout (now s) ctx time_Second in
  let cs := connString username password port in
  let s1 := record W (pgxpoolNew ctx' cs) s in
  let run := CreatePGPool W ctx username password port in
  time_Second = 1000000000 /\
  parent_of ctx' = Some ctx /\
  Deadline ctx' =
    Some (match Deadline ctx with
          | Some d => Z.min d (now s + time_Second)
          | None => now s + time_Second
          end) /\
  pgxpoolNew ctx' cs ∈ issued run s /\
  (forall pool : Pool, new_pool W s ctx' cs = inl pool -> poolPing ctx' pool ∈ issued run s) /\
  (forall (e : event) (c : Context),
     e ∈ issued run s -> event_ctx e = Some c -> c = ctx') /\
  (honours_deadline W ->
     now (snd (run s)) <= now s + time_Second /\
     (forall d : Z, Deadline ctx = Some d -> now (snd (run s)) <= Z.max (now s) d) /\
     (forall (pool : Pool) (cause : error),
        new_pool W s ctx' cs = inl pool -> ping W s1 ctx' pool = Some cause ->
        exists e : error,
          fst (run s) = Returned (None, Some e) /\ Is e ErrPgPoolConnect = true)).
Proof.
  intros ctx' cs s1 run.
  assert (Hdl : Deadline ctx' =
    Some (match Deadline ctx with
          | Some d => Z.min d (now s + time_Second)
          | None => now s + time_Second
          end)) by apply Deadline_WithDeadline.
  split; [reflexivity|]. split; [apply parent_of_WithDeadline|]. split; [exact Hdl|].
  split; [|split; [|split]].
  - unfold run. prober_cases pool cause; read_calls; apply elem_of_cons; by left.
  - intros pool Hnew. unfold run, issued. rewrite CreatePGPool_cases.
    fold ctx' cs s1. rewrite Hnew. cbv zeta.
    destruct (ping W s1 ctx' pool); read_calls;
      apply elem_of_cons; right; apply elem_of_cons; by left.
  - intros e c. unfold run. prober_cases pool cause; read_calls;
      rewrite ?elem_of_cons, elem_of_nil; intros He Hc;
      repeat (destruct He as [->|He];
              [simpl in Hc; first [discriminate | by injection Hc as <-]|]); done.
  - intros Hworld.
    pose proof (Hworld s (pgxpoolNew ctx' cs) ctx' _ eq_refl Hdl) as Hnew_time.
    assert (Hping_time : forall pool : Pool,
      now s1 + elapsed W s1 (poolPing ctx' pool) <= Z.max (now s1) (now s + time_Second) /\
      forall d : Z, Deadline ctx = Some d ->
        now s1 + elapsed W s1 (poolPing ctx' pool) <= Z.max (now s1) d).
    { intros pool.
      pose proof (Hworld s1 (poolPing ctx' pool) ctx' _ eq_refl Hdl) as Hp.
      destruct (Deadline ctx) as [d|].
      - split; [lia|]. intros d' [= <-]. lia.
      - split; [lia|]. done. }
    assert (Hstart : now s1 = now s + elapsed W s (pgxpoolNew ctx' cs)) by reflexivity.
    assert (Hsec : 0 <= time_Second) by (unfold time_Second; lia).
    split; [|split].
    + unfold run. rewrite CreatePGPool_cases. fold ctx' cs s1.
      destruct (new_pool W s ctx' cs) as [pool|cause]; cbv zeta.
      * destruct (Hping_time pool) as [Hp _].
        destruct (ping W s1 ctx' pool); simpl in *; destruct (Deadline ctx); lia.
      * simpl in *. destruct (Deadline ctx); lia.
    + intros d Hd. unfold run. rewrite CreatePGPool_cases. fold ctx' cs s1.
      rewrite Hd in Hnew_time.
      destruct (new_pool W s ctx' cs) as [pool|cause]; cbv zeta.
      * destruct (Hping_time pool) as [_ Hp]. specialize (Hp d Hd).
        destruct (ping W s1 ctx' pool); simpl in *; lia.
      * simpl in *. lia.
    + intros pool cause Hnew Hping. eexists. unfold run.
      rewrite CreatePGPool_cases. fold ctx' cs s1. rewrite Hnew. cbv zeta.
      rewrite Hping. split; reflexivity.
Qed.


End Prober.

(** ** Further properties of the prober *)

Section ProberMore.

Variable W : World.

(** The three runs of [CreatePGPool], for the proofs of this section. *)
Ltac prober_run pool cause :=
  rewrite CreatePGPool_cases; cbv zeta;
  destruct (new_pool W _ _ _) as [pool|cause];
  [ destruct (ping W _ _ pool) as [cause|] | ].

(** X1: the calls of a run of [CreatePGPool] are one [pgxpool.New], then one
    ping of the pool it gave when it gave one, then the cancelling of the
    derived context: the context is cancelled on every path, last, and
    nothing is tried twice. *)
Theorem CreatePGPool_calls_in_order
    (ctx : Context) (username password : string) (port : Z) (s : State) :
  let ctx' := context_WithTimeout (now s) ctx time_Second in
  let cs := connString username password port in
  issued (CreatePGPool W ctx username password port) s =
    [pgxpoolNew ctx' cs] ++
    match new_pool W s ctx' cs with
    | inl pool => [poolPing ctx' pool]
    | inr _ => []
    end ++
    [cancel ctx'].
Proof.
  intros ctx' cs. unfold issued. rewrite CreatePGPool_cases. fold ctx' cs.
  destruct (new_pool W s ctx' cs) as [pool|cause]; cbv zeta.
  - destruct (ping W _ ctx' pool); simpl; rewrite <- !app_assoc; simpl;
      by rewrite drop_app_length.
  - simpl. rewrite <- !app_assoc. simpl. by rewrite drop_app_length.
Qed.

(** X2: [CreatePGPool] reports a failure through the error it returns and in
    no other way: whatever the world answers, the files, the failed flag of
    the test, what the test has logged and what was printed on standard error
    are as they were before the call. *)
Theorem CreatePGPool_leaves_test_untouched
    (ctx : Context) (username password : string) (port : Z) (s : State) :
  let s' := snd (CreatePGPool W ctx username password port s) in
  files s' = files s /\
  failed s' = failed s /\
  output s' = output s /\
  stderr s' = stderr s.
Proof.
  cbv zeta. prober_run pool cause; done.
Qed.

Lemma length_string_app (a b : string) :
  String.length (a +:+ b) = (String.length a + String.length b)%nat.
Proof.
  induction a as [|x a IH]; [reflexivity|].
  rewrite app_String. simpl. by rewrite IH.
Qed.

(** The error made for a failed ping is not the cause of the failure: its text
    is longer. *)
Lemma Errorf_w_s_fresh (addr : positive) (sentinel cause : error) :
  Errorf_w_s addr sentinel cause <> cause.
Proof.
  intros Heq. apply (f_equal (fun e => String.length (Error e))) in Heq.
  unfold Errorf_w_s in Heq. simpl in Heq.
  rewrite !length_string_app in Heq. simpl in Heq. lia.
Qed.

(** X4: when the ping fails, the error returned has [ErrPgPoolConnect] in its
    chain and nothing else: [errors.Is] holds for a target exactly when the
    target is the returned error itself, at its address, or the sentinel.
    The cause of the failure is in the text only, so [errors.Is(err, cause)]
    holds only when the cause is the sentinel. *)
Theorem CreatePGPool_ping_cause_not_wrapped
    (ctx : Context) (username password : string) (port : Z) (s : State)
    (pool : Pool) (cause : error) :
  let ctx' := context_WithTimeout (now s) ctx time_Second in
  let cs := connString username password port in
  let s1 := record W (pgxpoolNew ctx' cs) s in
  new_pool W s ctx' cs = inl pool ->
  ping W s1 ctx' pool = Some cause ->
  exists e : error,
    fst (CreatePGPool W ctx username password port s) = Returned (None, Some e) /\
    (forall target : error,
       Is e target = true <-> target = e \/ target = ErrPgPoolConnect) /\
    (Is e cause = true <-> cause = ErrPgPoolConnect).
Proof.
  intros ctx' cs s1 Hnew Hping.
  set (addr := alloc W (record W (poolPing ctx' pool) s1)).
  exists (Errorf_w_s addr ErrPgPoolConnect cause).
  rewrite CreatePGPool_cases. fold ctx' cs s1. rewrite Hnew. cbv zeta.
  rewrite Hping. split; [reflexivity|].
  assert (Hchain : forall target : error,
    Is (Errorf_w_s addr ErrPgPoolConnect cause) target = true <->
    target = Errorf_w_s addr ErrPgPoolConnect cause \/ target = ErrPgPoolConnect).
  { intros target. unfold Errorf_w_s at 1. simpl.
    rewrite orb_false_r, orb_true_iff, !bool_decide_eq_true.
    unfold Errorf_w_s. split; intros [?|?]; auto. }
  split; [exact Hchain|].
  rewrite Hchain. split; [|by right].
  intros [Hself|?]; [|done].
  by destruct (Errorf_w_s_fresh addr ErrPgPoolConnect cause).
Qed.

(** X10: when [pgxpool.New] fails, the error returned keeps the whole chain of
    the cause: [errors.Is] holds for a target exactly when the target is the
    returned error itself, at its address, or [errors.Is] holds for the cause
    and the target.  So a caller can still match the errors pgx wraps. *)
Theorem CreatePGPool_construction_cause_wrapped
    (ctx : Context) (username password : string) (port : Z) (s : State)
    (cause : error) :
  let ctx' := context_WithTimeout (now s) ctx time_Second in
  let cs := connString username password port in
  new_pool W s ctx' cs = inr cause ->
  exists e : error,
    fst (CreatePGPool W ctx username password port s) = Returned (None, Some e) /\
    forall target : error,
      Is e target = true <-> target = e \/ Is cause target = true.
Proof.
  intros ctx' cs Hnew.
  set (addr := alloc W (record W (pgxpoolNew ctx' cs) s)).
  exists (Errorf_w addr "failed to construct new pool: " cause).
  rewrite CreatePGPool_cases. fold ctx' cs. rewrite Hnew.
  split; [reflexivity|].
  intros target. unfold Errorf_w at 1. simpl.
  rewrite orb_true_iff, bool_decide_eq_true.
  unfold Errorf_w. split; intros [?|?]; auto.
Qed.

(** X6: for a user name and a password of plain bytes (letters, digits and
    the marks [validUserinfo] accepts, the percent sign left out), a user name
    without colon and a port that is not negative, [url.Parse] reads back
    from the connection string exactly what went in: this user name, this
    password, and the host [127.0.0.1:<port>].  With a negative port it
    refuses the string. *)
Theorem connString_names_loopback (username password : string) (port : Z) :
  Url.plain_userinfo username = true ->
  free_of (Url.is_char ":") username = true ->
  Url.plain_userinfo password = true ->
  (0 <= port ->
   Url.Parse (connString username password port) =
     Url.Ok (Url.mkURL (Some (username, Some password))
                       ("127.0.0.1:" +:+ pretty port))) /\
  (port < 0 -> Url.Parse (connString username password port) = Url.Rejected).
Proof.
  intros Hu Hcolon Hp. rewrite Parse_connString_loopback by done.
  destruct (Z.leb_spec 0 port); split; intros; first [reflexivity | lia].
Qed.

End ProberMore.

(** ** Container names with separators *)

Lemma elements_from_join_sep_free (e : string) (es : list string) :
  Forall (fun x => free_of Filepath.is_separator x = true) (e :: es) ->
  Filepath.elements_from "" (Filepath.join_sep (e :: es)) = e :: es.
Proof.
  revert e. induction es as [|e' es IH]; intros e Hfree.
  - simpl. apply Forall_cons in Hfree as [He _].
    rewrite <- (string_app_empty_r e) at 1.
    rewrite elements_from_free by done. reflexivity.
  - apply Forall_cons in Hfree as [He Hes].
    change (Filepath.join_sep (e :: e' :: es))
      with (e +:+ "/" +:+ Filepath.join_sep (e' :: es)).
    rewrite elements_from_free by done.
    rewrite elements_from_separator, app_empty. f_equal. by apply IH.
Qed.

(** [Clean] on a rooted path whose elements have no separator inside. *)
Lemma Clean_rooted (es : list string) :
  es <> [] ->
  Forall (fun x => free_of Filepath.is_separator x = true) es ->
  Filepath.Clean ("/" +:+ Filepath.join_sep es) =
    "/" +:+ Filepath.join_sep (rev (fold_left (Filepath.clean_step true) es [])).
Proof.
  intros Hne Hfree. destruct es as [|e es]; [done|].
  unfold Filepath.Clean, Filepath.elements.
  rewrite elements_from_separator, elements_from_join_sep_free by done.
  change (Filepath.IsAbs ("/" +:+ Filepath.join_sep (e :: es))) with true.
  rewrite bool_decide_eq_false_2 by discriminate.
  reflexivity.
Qed.

(** The log path of a container named [../n]: the parent of the log
    directory. *)
Lemma log_path_parent (dirs : list string) (d n : string) :
  Forall (fun x => Filepath.plain x = true) (dirs ++ [d]) ->
  free_of Filepath.is_separator n = true ->
  Filepath.Join ["/" +:+ Filepath.join_sep (dirs ++ [d]); ("../" +:+ n) +:+ ".log"] =
    "/" +:+ Filepath.join_sep (dirs ++ [n +:+ ".log"]).
Proof.
  intros Hdirs Hn.
  pose proof (proj1 (Forall_app _ _ _) Hdirs) as [Hplain_dirs Hlast].
  pose proof (Forall_inv Hlast) as Hd. simpl in Hd.
  assert (Hlog : Filepath.plain (n +:+ ".log") = true) by by apply plain_log_name.
  unfold Filepath.Join. rewrite bool_decide_eq_false_2 by discriminate.
  change (Filepath.join_sep
            ["/" +:+ Filepath.join_sep (dirs ++ [d]); ("../" +:+ n) +:+ ".log"])
    with (("/" +:+ Filepath.join_sep (dirs ++ [d])) +:+ "/" +:+ ("../" +:+ n) +:+ ".log").
  replace (("/" +:+ Filepath.join_sep (dirs ++ [d])) +:+ "/" +:+ ("../" +:+ n) +:+ ".log")
    with ("/" +:+ Filepath.join_sep (((dirs ++ [d]) ++ [".."]) ++ [n +:+ ".log"])).
  2:{ rewrite (join_sep_snoc ((dirs ++ [d]) ++ [".."]))
        by (intros [? ?]%app_eq_nil; discriminate).
      rewrite (join_sep_snoc (dirs ++ [d]))
        by (intros [? ?]%app_eq_nil; discriminate).
      rewrite !string_app_assoc. reflexivity. }
  rewrite Clean_rooted.
  - do 2 f_equal. rewrite !fold_left_app.
    rewrite (fold_clean_step_plain true dirs) by done. rewrite app_nil_r.
    cbn [fold_left]. rewrite (clean_step_plain true _ d) by done.
    assert (Hdd : bool_decide (d = "..") = false).
    { unfold Filepath.plain in Hd. rewrite !andb_true_iff in Hd.
      destruct Hd as [_ Hd]. by apply negb_true_iff in Hd. }
    assert (Hpop : Filepath.clean_step true (d :: rev dirs) ".." = rev dirs).
    { unfold Filepath.clean_step.
      change (bool_decide (".." = "")) with false.
      change (bool_decide (".." = ".")) with false.
      change (bool_decide (".." = "..")) with true. cbv iota.
      by rewrite Hdd. }
    rewrite Hpop. rewrite clean_step_plain by done.
    simpl. by rewrite rev_involutive.
  - intros [? ?]%app_eq_nil; discriminate.
  - rewrite !Forall_app. repeat split.
    + eapply Forall_impl; [exact Hplain_dirs|]. intros x. apply plain_free.
    + apply Forall_singleton. by apply plain_free.
    + by apply Forall_singleton.
    + apply Forall_singleton. by apply plain_free.
Qed.

(** ** Further properties of the controller *)

Section ControllerMore.

Variable W : World.

(** The runs of [TerminateContainer] for a name that is not empty, for the
    proofs of this section: the goal is split along the answers of the
    world. *)
Ltac controller_run Hname HlogDir :=
  rewrite TerminateContainer_after_writeLogs by exact Hname;
  rewrite writeLogs_cases by exact HlogDir;
  destruct (snd (run_command W _ _ ["docker"; "logs"; _]));
  [ | destruct (write_error W _ _ _ _);
      [ | rewrite TerminateContainer_no_logDir by exact Hname;
          destruct (run_command W _ _ (termCmd _ _)) as [? [?|]] ] ].

Ltac controller_run_no_logDir Hname :=
  rewrite TerminateContainer_no_logDir by exact Hname;
  destruct (run_command W _ _ (termCmd _ _)) as [? [?|]].

(** X3: whatever the world answers, [TerminateContainer] registers no
    cleanup and removes none, prints nothing on standard error, and leaves
    every file other than the log file of the container as it was. *)
Theorem TerminateContainer_touches_only_the_log
    (ctx : Context) (name logDir : string) (kill : bool) (s : State) :
  let s' := snd (TerminateContainer W ctx name logDir kill s) in
  cleanups s' = cleanups s /\
  stderr s' = stderr s /\
  forall file : string,
    file <> Filepath.Join [logDir; name +:+ ".log"] ->
    files s' !! file = files s !! file.
Proof.
  cbv zeta.
  destruct (decide (name = "")) as [->|Hname]; [done|].
  destruct (decide (logDir = "")) as [->|HlogDir].
  - controller_run_no_logDir Hname; done.
  - controller_run Hname HlogDir; simpl; repeat split; try done;
      intros file Hfile; by rewrite lookup_insert_ne.
Qed.

(** X7: the log directory is the switch of the log capture.  With the empty
    string a run makes one call, the termination command, and changes no
    file; with any other directory the first call of a run is
    [docker logs <name>]. *)
Theorem TerminateContainer_capture_switch
    (ctx : Context) (name logDir : string) (kill : bool) (s : State) :
  name <> "" ->
  let run := TerminateContainer W ctx name logDir kill in
  (logDir = "" ->
     issued run s = [CombinedOutput ctx (termCmd kill name)] /\
     files (snd (run s)) = files s) /\
  (logDir <> "" ->
     exists rest : list event,
       issued run s = CombinedOutput ctx ["docker"; "logs"; name] :: rest).
Proof.
  intros Hname run. unfold run, issued. split.
  - intros ->. controller_run_no_logDir Hname; by read_issued.
  - intros HlogDir. controller_run Hname HlogDir; read_issued; by eexists.
Qed.

(** X8: every docker command of a run is started with the context the caller
    gave: the controller derives no context of its own and sets no
    deadline. *)
Theorem TerminateContainer_uses_caller_context
    (ctx : Context) (name logDir : string) (kill : bool) (s : State) :
  Forall (fun e => forall c : Context, event_ctx e = Some c -> c = ctx)
         (issued (TerminateContainer W ctx name logDir kill) s).
Proof.
  assert (Hcmd : forall argv (c : Context),
    event_ctx (CombinedOutput ctx argv) = Some c -> c = ctx)
    by (intros argv c [= <-]; reflexivity).
  assert (Hwrite : forall path data perm (c : Context),
    event_ctx (WriteFile path data perm) = Some c -> c = ctx)
    by (intros path data perm c [=]).
  unfold issued.
  destruct (decide (name = "")) as [->|Hname].
  { simpl. rewrite drop_all. constructor. }
  destruct (decide (logDir = "")) as [->|HlogDir].
  - controller_run_no_logDir Hname; read_issued; repeat constructor; apply Hcmd.
  - controller_run Hname HlogDir; read_issued; repeat constructor;
      first [apply Hcmd | apply Hwrite].
Qed.



(** X9: the container name is not checked.  For a log directory that is a
    rooted path of plain names and a container named [../n], a run whose log
    command goes through writes the log to [n.log] in the parent of the log
    directory, not in the log directory. *)
Theorem TerminateContainer_log_can_leave_logDir
    (ctx : Context) (dirs : list string) (d n : string) (kill : bool) (s : State) :
  Forall (fun x => Filepath.plain x = true) (dirs ++ [d]) ->
  free_of Filepath.is_separator n = true ->
  let logDir := "/" +:+ Filepath.join_sep (dirs ++ [d]) in
  let name := "../" +:+ n in
  let out := fst (run_command W s ctx ["docker"; "logs"; name]) in
  snd (run_command W s ctx ["docker"; "logs"; name]) = None ->
  WriteFile ("/" +:+ Filepath.join_sep (dirs ++ [n +:+ ".log"])) out log_file_mode
    ∈ issued (TerminateContainer W ctx name logDir kill) s.
Proof.
  intros Hdirs Hn logDir name out Hlogs.
  rewrite <- (log_path_parent dirs d n) by done. fold logDir name.
  assert (Hname : name <> "") by discriminate.
  assert (HlogDir : logDir <> "") by discriminate.
  unfold issued.
  rewrite TerminateContainer_after_writeLogs by exact Hname.
  rewrite writeLogs_cases by exact HlogDir. rewrite Hlogs. fold out.
  destruct (write_error W _ _ _ _).
  - read_issued. apply elem_of_cons. right. apply elem_of_cons. by left.
  - rewrite TerminateContainer_no_logDir by exact Hname.
    destruct (run_command W _ _ (termCmd _ _)) as [? [?|]];
      read_issued; apply elem_of_cons; right; apply elem_of_cons; by left.
Qed.

End ControllerMore.

(** ** Runs in the example worlds *)

Import Worlds.

Lemma unreachable_honours_deadline : honours_deadline unreachable.
Proof.
  intros s e ctx d Hctx Hd. unfold unreachable, elapsed.
  rewrite Hctx. simpl. rewrite Hd.
  destruct e; lia.
Qed.

Lemma TerminateContainer_captures_log_first_witness :
  let run := TerminateContainer healthy background "db1" "/var/log/hydra" false in
  files fresh !! "/var/log/hydra/db1.log" = None /\
  issued run fresh =
    [CombinedOutput background ["docker"; "logs"; "db1"];
     WriteFile "/var/log/hydra/db1.log" "2026-01-01 database system is ready" 420;
     CombinedOutput background ["docker"; "stop"; "--time"; "30"; "db1"]] /\
  files (snd (run fresh)) !! "/var/log/hydra/db1.log" =
    Some (mkFile "2026-01-01 database system is ready" 420).
Proof.
  pose proof (TerminateContainer_captures_log_first healthy background
                "db1" "/var/log/hydra" false fresh
                ltac:(discriminate) ltac:(discriminate))
    as (_ & _ & _ & _ & Hcaptured).
  destruct (Hcaptured eq_refl eq_refl) as (Hissued & _ & _ & _ & _ & Hcreated).
  destruct (Hcreated eq_refl) as [_ Hmode].
  split; [reflexivity|]. split; [exact Hissued|exact (Hmode eq_refl)].
Defined.

(** The log of an earlier run is there with mode 0600: the run overwrites what
    it holds and the mode stays 0600. *)
Lemma TerminateContainer_existing_log_keeps_mode :
  let run := TerminateContainer healthy background "db1" "/var/log/hydra" false in
  fst (run start) = Returned tt /\
  files start !! "/var/log/hydra/db1.log" =
    Some (mkFile "log of an earlier run" 384) /\
  files (snd (run start)) !! "/var/log/hydra/db1.log" =
    Some (mkFile "2026-01-01 database system is ready" 384) /\
  perm_bits 384 = "rw-------" /\
  384 <> log_file_mode.
Proof.
  repeat split; try reflexivity. discriminate.
Qed.

Lemma MustHaveValidContainerLogDir_aborts_or_returns_witness :
  MustHaveValidContainerLogDir "logs" start =
    (Exit 1,
     mkState 0 (files start) [] [] false []
       ["the container log dir must be absolute, got logs"]) /\
  (MustHaveValidContainerLogDir "logs" ;;;
   TerminateContainer healthy background "db1" "logs" true) start =
    (Exit 1,
     mkState 0 (files start) [] [] false []
       ["the container log dir must be absolute, got logs"]) /\
  MustHaveValidContainerLogDir "/var/log/hydra" start = (Returned tt, start) /\
  MustHaveValidContainerLogDir "" start = (Returned tt, start).
Proof.
  assert (Hne : "logs" <> "") by discriminate.
  assert (Hrel : Filepath.IsAbs "logs" = false) by reflexivity.
  pose proof (proj1 (MustHaveValidContainerLogDir_aborts_or_returns "logs" start)
                (conj Hne Hrel)) as Hrelative.
  cbv zeta in Hrelative. destruct Hrelative as [Hexit Hnext].
  assert (Habs : Filepath.IsAbs "/var/log/hydra" = true) by reflexivity.
  pose proof (proj2 (MustHaveValidContainerLogDir_aborts_or_returns "/var/log/hydra" start)
                (or_intror Habs)) as [Habsolute _].
  pose proof (proj2 (MustHaveValidContainerLogDir_aborts_or_returns "" start)
                (or_introl eq_refl)) as [Hempty _].
  split; [exact Hexit|].
  split; [exact (Hnext unit (TerminateContainer healthy background "db1" "logs" true))|].
  split; [exact Habsolute|exact Hempty].
Defined.

Lemma CreatePGPool_error_classes_witness :
  let run := CreatePGPool misconfigured background "hydra" "secret" 5432 in
  let cause := errorString 3 "cannot parse connection string" in
  exists e : error,
    fst (run start) = Returned (None, Some e) /\
    Error e = "failed to construct new pool: cannot parse connection string" /\
    Unwrap e = Some cause /\
    Is e cause = true /\
    Is e ErrPgPoolConnect = false.
Proof.
  intros run cause.
  assert (Hlib : forall c : error,
    new_pool misconfigured start
      (context_WithTimeout (now start) background time_Second)
      (connString "hydra" "secret" 5432) = inr c ->
    Is c ErrPgPoolConnect = false).
  { intros c Hc. injection Hc as <-. reflexivity. }
  destruct (CreatePGPool_error_classes misconfigured background
              "hydra" "secret" 5432 start Hlib) as (_ & Hconstruction & _).
  destruct (Hconstruction cause eq_refl) as (e & Hrun & Hunwrap & Hcause & Hsentinel & _).
  exists e. split; [exact Hrun|]. split.
  - injection Hrun as <-. reflexivity.
  - split; [exact Hunwrap|]. split; [exact Hcause|exact Hsentinel].
Defined.

Lemma TerminateContainer_termination_command_witness :
  let logs := CombinedOutput background ["docker"; "logs"; "db1"] in
  let write :=
    WriteFile "/var/log/hydra/db1.log" "2026-01-01 database system is ready" 420 in
  issued (TerminateContainer healthy background "db1" "/var/log/hydra" false) start =
    [logs; write; CombinedOutput background ["docker"; "stop"; "--time"; "30"; "db1"]] /\
  issued (TerminateContainer stubborn background "db1" "" false) start =
    [CombinedOutput background ["docker"; "stop"; "--time"; "30"; "db1"]] /\
  fst (TerminateContainer stubborn background "db1" "" false start) = FailNow /\
  issued (TerminateContainer healthy background "db1" "" true) start =
    [CombinedOutput background ["docker"; "kill"; "db1"]] /\
  issued (TerminateContainer docker_down background "db1" "/var/log/hydra" true) start =
    [logs].
Proof.
  intros logs write.
  pose proof (TerminateContainer_termination_command healthy background
                "db1" "/var/log/hydra" false start ltac:(discriminate))
    as (_ & _ & _ & Hstop & _).
  pose proof (TerminateContainer_termination_command stubborn background
                "db1" "" false start ltac:(discriminate))
    as (_ & _ & _ & Hstubborn & _).
  pose proof (TerminateContainer_termination_command healthy background
                "db1" "" true start ltac:(discriminate))
    as (_ & _ & _ & Hkill & _).
  pose proof (TerminateContainer_termination_command docker_down background
                "db1" "/var/log/hydra" true start ltac:(discriminate))
    as (_ & _ & _ & Hdown & _).
  split; [exact Hstop|]. split; [exact Hstubborn|]. split; [reflexivity|].
  split; [exact Hkill|exact Hdown].
Defined.

Lemma TerminateContainer_failures_fatal_witness :
  let logs := CombinedOutput background ["docker"; "logs"; "db1"] in
  let write := WriteFile "/var/log/hydra/db1.log" "2026-01-01 database system is ready" 420 in
  let stop := CombinedOutput background ["docker"; "stop"; "--time"; "30"; "db1"] in
  (fst (TerminateContainer docker_down background "db1" "/var/log/hydra" false start) = FailNow /\
   output (snd (TerminateContainer docker_down background "db1" "/var/log/hydra" false start)) =
     ["unable to fetch container log exit status 1: Cannot connect to the Docker daemon"] /\
   issued (TerminateContainer docker_down background "db1" "/var/log/hydra" false) start =
     [logs]) /\
  (fst (TerminateContainer disk_full background "db1" "/var/log/hydra" false start) = FailNow /\
   output (snd (TerminateContainer disk_full background "db1" "/var/log/hydra" false start)) =
     ["unable to write container log: no space left on device"] /\
   issued (TerminateContainer disk_full background "db1" "/var/log/hydra" false) start =
     [logs; write]) /\
  (fst (TerminateContainer stubborn background "db1" "" false start) = FailNow /\
   output (snd (TerminateContainer stubborn background "db1" "" false start)) =
     ["unable to terminate container exit status 1: Error response from daemon"] /\
   issued (TerminateContainer stubborn background "db1" "" false) start = [stop]).
Proof.
  intros logs write stop.
  destruct (TerminateContainer_failures_fatal docker_down background
              "db1" "/var/log/hydra" false start ltac:(discriminate))
    as (_ & Hfetch & _).
  destruct (Hfetch "Cannot connect to the Docker daemon" (errorString 4 "exit status 1")
              ltac:(discriminate) eq_refl) as [Hrun1 Hissued1].
  destruct (TerminateContainer_failures_fatal disk_full background
              "db1" "/var/log/hydra" false start ltac:(discriminate))
    as (_ & _ & Hwrite & _).
  destruct (Hwrite "2026-01-01 database system is ready"
              (errorString 5 "no space left on device")
              ltac:(discriminate) eq_refl eq_refl) as [Hrun2 Hissued2].
  destruct (TerminateContainer_failures_fatal stubborn background
              "db1" "" false start ltac:(discriminate))
    as (_ & _ & _ & Hterm & _).
  destruct (Hterm start "Error response from daemon" (errorString 6 "exit status 1")
              eq_refl eq_refl) as [Hrun3 Hissued3].
  split; [|split].
  - rewrite Hrun1. split; [reflexivity|]. split; [reflexivity|exact Hissued1].
  - rewrite Hrun2. split; [reflexivity|]. split; [reflexivity|exact Hissued2].
  - rewrite Hrun3. split; [reflexivity|]. split; [reflexivity|exact Hissued3].
Defined.

Lemma CreatePGPool_bounded_by_timeout_witness :
  let run := CreatePGPool unreachable background "hydra" "secret" 5432 in
  now (snd (run start)) <= now start + time_Second /\
  exists e : error,
    fst (run start) = Returned (None, Some e) /\ Is e ErrPgPoolConnect = true.
Proof.
  intros run.
  destruct (CreatePGPool_bounded_by_timeout unreachable background
              "hydra" "secret" 5432 start) as (_ & _ & _ & _ & _ & _ & Hbound).
  destruct (Hbound unreachable_honours_deadline) as (Hlate & _ & Hping).
  split; [exact Hlate|].
  exact (Hping (poolPtr 7) (errorString 2 "context deadline exceeded") eq_refl eq_refl).
Defined.



(** The same runs, computed. *)

Example healthy_pool :
  fst (CreatePGPool healthy background "hydra" "secret" 5432 start) =
    Returned (Some (poolPtr 7), None) /\
  cleanups (snd (CreatePGPool healthy background "hydra" "secret" 5432 start)) =
    [closePool (poolPtr 7)].
Proof. split; reflexivity. Qed.

Example unreachable_pool :
  fst (CreatePGPool unreachable background "hydra" "secret" 5432 start) =
    Returned (None,
              Some (wrapError 102 "pgxpool did not connect: context deadline exceeded"
                              ErrPgPoolConnect)) /\
  cleanups (snd (CreatePGPool unreachable background "hydra" "secret" 5432 start)) = [] /\
  now (snd (CreatePGPool unreachable background "hydra" "secret" 5432 start)) = time_Second.
Proof. repeat split; reflexivity. Qed.

(** A caller whose own deadline is half a second away is not kept longer than
    that. *)
Example unreachable_pool_short_deadline :
  now (snd (CreatePGPool unreachable (callerCtx (Some 500000000))
              "hydra" "secret" 5432 start)) = 500000000.
Proof. reflexivity. Qed.

(** Two [fmt.Errorf] values with the same text and the same wrapped error are
    two errors: neither matches the other. *)
Example Is_compares_addresses :
  Is (Errorf_w_s 7 ErrPgPoolConnect (errorString 2 "context deadline exceeded"))
     (Errorf_w_s 8 ErrPgPoolConnect (errorString 2 "context deadline exceeded")) = false /\
  Is (Errorf_w 7 "failed to construct new pool: " (errorString 3 "cannot parse"))
     (Errorf_w 8 "failed to construct new pool: " (errorString 3 "cannot parse")) = false.
Proof. split; reflexivity. Qed.

(** What the model of [url.Parse] says on strings that [net/url] refuses, on
    one it accepts with another host, and on one it does not cover. *)
Example Parse_refuses :
  Url.Parse (connString "hydra" "se cret" 5432) = Url.Rejected /\
  Url.Parse (connString "hydra" "secret" (-1)) = Url.Rejected /\
  Url.Parse (connString "hydra" "x@evil:x/" 5432) = Url.Rejected /\
  Url.Parse (connString "hydra" "x#y" 5432) = Url.Rejected /\
  Url.Parse (connString "hydra" "5433/q" 5432) =
    Url.Ok (Url.mkURL None "hydra:5433") /\
  Url.Parse (connString "hydra" "50%" 5432) = Url.Unmodelled.
Proof. repeat split; reflexivity. Qed.

(** Runs for the further properties. *)

Lemma CreatePGPool_ping_cause_not_wrapped_witness :
  exists e : error,
    fst (CreatePGPool unreachable background "hydra" "secret" 5432 start) =
      Returned (None, Some e) /\
    Is e ErrPgPoolConnect = true /\
    Is e (errorString 2 "context deadline exceeded") = false.
Proof.
  destruct (CreatePGPool_ping_cause_not_wrapped unreachable background
              "hydra" "secret" 5432 start (poolPtr 7)
              (errorString 2 "context deadline exceeded") eq_refl eq_refl)
    as (e & Hrun & Hchain & Hcause).
  exists e. split; [exact Hrun|]. split.
  - apply Hchain. by right.
  - destruct (Is e (errorString 2 "context deadline exceeded")) eqn:His; [|reflexivity].
    discriminate (proj1 Hcause eq_refl).
Defined.


Lemma connString_names_loopback_witness :
  Url.Parse (connString "hydra" "s@cret:1" 5432) =
    Url.Ok (Url.mkURL (Some ("hydra", Some "s@cret:1")) "127.0.0.1:5432") /\
  Url.Parse (connString "hydra" "s@cret:1" (-1)) = Url.Rejected.
Proof.
  destruct (connString_names_loopback "hydra" "s@cret:1" 5432 eq_refl eq_refl eq_refl)
    as [Hok _].
  destruct (connString_names_loopback "hydra" "s@cret:1" (-1) eq_refl eq_refl eq_refl)
    as [_ Hrejected].
  split; [exact (Hok ltac:(discriminate))|exact (Hrejected eq_refl)].
Defined.

Lemma TerminateContainer_capture_switch_witness :
  (issued (TerminateContainer healthy background "db1" "" false) start =
     [CombinedOutput background ["docker"; "stop"; "--time"; "30"; "db1"]] /\
   files (snd (TerminateContainer healthy background "db1" "" false start)) = files start) /\
  exists rest : list event,
    issued (TerminateContainer docker_down background "db1" "/var/log/hydra" false) start =
      CombinedOutput background ["docker"; "logs"; "db1"] :: rest.
Proof.
  assert (Hname : "db1" <> "") by discriminate.
  assert (HlogDir : "/var/log/hydra" <> "") by discriminate.
  pose proof (proj1 (TerminateContainer_capture_switch healthy background
                       "db1" "" false start Hname) eq_refl) as Hoff.
  pose proof (proj2 (TerminateContainer_capture_switch docker_down background
                       "db1" "/var/log/hydra" false start Hname) HlogDir) as Hon.
  split; [exact Hoff|exact Hon].
Defined.

Lemma TerminateContainer_log_can_leave_logDir_witness :
  WriteFile "/var/log/x.log" "2026-01-01 database system is ready" 420 ∈
    issued (TerminateContainer healthy background "../x" "/var/log/hydra" false) start.
Proof.
  assert (Hdirs : Forall (fun x => Filepath.plain x = true) (["var"; "log"] ++ ["hydra"])).
  { repeat constructor. }
  exact (TerminateContainer_log_can_leave_logDir healthy background
           ["var"; "log"] "hydra" "x" false start Hdirs eq_refl eq_refl).
Defined.

Lemma CreatePGPool_construction_cause_wrapped_witness :
  exists e : error,
    fst (CreatePGPool misconfigured background "hydra" "secret" 5432 start) =
      Returned (None, Some e) /\
    Is e (errorString 3 "cannot parse connection string") = true /\
    Is e ErrPgPoolConnect = false.
Proof.
  destruct (CreatePGPool_construction_cause_wrapped misconfigured background
              "hydra" "secret" 5432 start
              (errorString 3 "cannot parse connection string") eq_refl)
    as (e & Hrun & Hchain).
  exists e. split; [exact Hrun|]. split.
  - apply Hchain. by right.
  - destruct (Is e ErrPgPoolConnect) eqn:His; [|reflexivity].
    destruct (proj1 (Hchain ErrPgPoolConnect) His) as [Hself|Hcause].
    + rewrite <- Hself in Hrun. discriminate Hrun.
    + discriminate Hcause.
Defined.
